(** * nula-packages: a shallow embedding of [lib/src/nula-packages.py]

  The script downloads [<pkg>.nula] from a fixed host into [~/.nula/lib],
  mirrors it into [./lib] when that path exists, and lists the cache.
  Its whole behaviour is effects on the operating system, so the
  development has three layers:

  - [posixpath]: the pure string functions of Python's [posixpath] the
    script calls ([join], [basename], [split]);
  - [OS]: a model of the environment the script runs against: a file
    system keyed by canonical paths, kernel path resolution, the
    [requests] response object;
  - [Nula]: the script itself, function by function, in a state and
    exception monad over the world. *)

From stdpp Require Import gmap strings list fin_maps pretty.
From Stdlib Require Import ZArith Strings.Byte Strings.Ascii.

Open Scope Z_scope.

(** ** Pure path functions (Python's [posixpath]) *)

Module posixpath.

Definition sep : ascii := "/"%char.

(** [s.startswith("/")] *)
Definition startswith_sep (s : string) : bool :=
  match s with
  | String c _ => bool_decide (c = sep)
  | EmptyString => false
  end.

(** [s.endswith("/")] *)
Fixpoint endswith_sep (s : string) : bool :=
  match s with
  | EmptyString => false
  | String c r =>
      match r with
      | EmptyString => bool_decide (c = sep)
      | String _ _ => endswith_sep r
      end
  end.

(** ["/" in s] *)
Fixpoint has_sep (s : string) : bool :=
  match s with
  | EmptyString => false
  | String c r => bool_decide (c = sep) || has_sep r
  end.

(** [posixpath.join(a, b)] for one extra component: an absolute [b]
    discards [a]; otherwise a separator is inserted unless [a] is empty
    or already ends with one. *)
Definition join (a b : string) : string :=
  if startswith_sep b then b
  else if bool_decide (a = "") || endswith_sep a then a +:+ b
  else a +:+ "/" +:+ b.

(** [s.split("/")]: the fields between separators, never an empty list. *)
Fixpoint components (s : string) : list string :=
  match s with
  | EmptyString => [""]
  | String c r =>
      if bool_decide (c = sep) then "" :: components r
      else match components r with
           | h :: t => String c h :: t
           | [] => [String c ""]
           end
  end.

(** [posixpath.basename(p)] is [p[p.rfind("/")+1:]], the last field. *)
Definition basename (p : string) : string := List.last (components p) "".

(** [p[:p.rfind("/")+1]]: everything up to and including the last
    separator. *)
Fixpoint upto_last_sep (p : string) : string :=
  match p with
  | EmptyString => ""
  | String c r =>
      if has_sep r then String c (upto_last_sep r)
      else if bool_decide (c = sep) then String c "" else ""
  end.

(** [s == "/" * len(s)] *)
Fixpoint all_sep (s : string) : bool :=
  match s with
  | EmptyString => true
  | String c r => bool_decide (c = sep) && all_sep r
  end.

(** [s.rstrip("/")] *)
Fixpoint rstrip_sep (s : string) : string :=
  match s with
  | EmptyString => ""
  | String c r => if all_sep s then "" else String c (rstrip_sep r)
  end.

(** [posixpath.split(p)]: [(head, tail)] around the last separator, the
    head stripped of trailing separators unless it is all separators. *)
Definition split (p : string) : string * string :=
  let head := upto_last_sep p in
  let tail := basename p in
  (if negb (bool_decide (head = "")) && negb (all_sep head)
   then rstrip_sep head else head, tail).

End posixpath.

(** ** The environment: file system, network, process *)

Module OS.

Import posixpath.

(** The [OSError] subclasses the modelled calls raise;
    [SameFileError] is [shutil]'s. *)
Inductive oserror :=
| FileNotFoundError
| NotADirectoryError
| IsADirectoryError
| PermissionError
| FileExistsError
| SameFileError.

(** A node carries the one permission bit the script can trip over:
    whether the invoking user may write it. *)
Inductive node :=
| File (writable : bool) (content : list byte)
| Dir (writable : bool).

(** A file system maps canonical absolute paths (the components from
    the root, [[]] being the root itself) to nodes.  There are no
    symbolic links and no quota. *)
Abbreviation path := (list string).
Abbreviation filesystem := (gmap (list string) node).

(** One step of path resolution from directory [cur]. *)
Definition step (cur : path) (c : string) : path :=
  if bool_decide (c = "" ∨ c = ".") then cur
  else if bool_decide (c = "..") then removelast cur
  else cur ++ [c].

(** Resolution walks the components left to right; every directory it
    walks through must exist and be a directory. *)
Fixpoint walk (fs : filesystem) (cur : path) (cs : list string)
  : oserror + path :=
  match cs with
  | [] => inr cur
  | c :: cs' =>
      match fs !! cur with
      | None => inl FileNotFoundError
      | Some (File _ _) => inl NotADirectoryError
      | Some (Dir _) => walk fs (step cur c) cs'
      end
  end.

(** A relative path is resolved below the working directory [cwd]
    (itself an absolute path string). *)
Definition resolve (fs : filesystem) (cwd s : string) : oserror + path :=
  if bool_decide (s = "") then inl FileNotFoundError
  else walk fs [] (if startswith_sep s then components s
                   else components cwd ++ components s).

(** Whether canonical path [q] is an existing directory. *)
Definition is_dir (fs : filesystem) (q : path) : bool :=
  match fs !! q with
  | Some (Dir _) => true
  | _ => false
  end.

(** [os.path.exists]: [os.stat] succeeds. *)
Definition path_exists (fs : filesystem) (cwd s : string) : bool :=
  match resolve fs cwd s with
  | inr q => bool_decide (is_Some (fs !! q))
  | inl _ => false
  end.

(** [os.path.isdir] *)
Definition path_isdir (fs : filesystem) (cwd s : string) : bool :=
  match resolve fs cwd s with
  | inr q => is_dir fs q
  | inl _ => false
  end.

(** [os.path.samefile], with [shutil._samefile]'s fallback to [False]
    when either [stat] fails. *)
Definition samefile (fs : filesystem) (cwd a b : string) : bool :=
  match resolve fs cwd a, resolve fs cwd b with
  | inr qa, inr qb =>
      bool_decide (is_Some (fs !! qa)) && bool_decide (is_Some (fs !! qb))
      && bool_decide (qa = qb)
  | _, _ => false
  end.

(** [open(s, "wb")], one [write] of [data], [close]: creates the file
    (writable) or truncates an existing writable one. *)
Definition write_file (fs : filesystem) (cwd s : string) (data : list byte)
  : oserror + filesystem :=
  match resolve fs cwd s with
  | inl e => inl e
  | inr q =>
      match fs !! q with
      | Some (Dir _) => inl IsADirectoryError
      | Some (File true _) => inr (<[q := File true data]> fs)
      | Some (File false _) => inl PermissionError
      | None =>
          match fs !! removelast q with
          | Some (Dir true) => inr (<[q := File true data]> fs)
          | Some (Dir false) => inl PermissionError
          | Some (File _ _) => inl NotADirectoryError
          | None => inl FileNotFoundError
          end
      end
  end.

(** [open(s, "rb").read()], together with the file's permission bit
    (what [os.stat(s).st_mode] gives [shutil.copymode]). *)
Definition read_file (fs : filesystem) (cwd s : string)
  : oserror + (bool * list byte) :=
  match resolve fs cwd s with
  | inl e => inl e
  | inr q =>
      match fs !! q with
      | Some (File m data) => inr (m, data)
      | Some (Dir _) => inl IsADirectoryError
      | None => inl FileNotFoundError
      end
  end.

(** [os.chmod(s, mode)] on a regular file. *)
Definition chmod (fs : filesystem) (cwd s : string) (m : bool)
  : oserror + filesystem :=
  match resolve fs cwd s with
  | inl e => inl e
  | inr q =>
      match fs !! q with
      | Some (File _ data) => inr (<[q := File m data]> fs)
      | Some (Dir _) => inr (<[q := Dir m]> fs)
      | None => inl FileNotFoundError
      end
  end.

(** The name [q] has directly inside directory [d], if any. *)
Definition entry_name (d q : path) : option string :=
  match q with
  | [] => None
  | _ :: _ => if bool_decide (removelast q = d)
              then Some (List.last q "") else None
  end.

(** [os.listdir]: the entry names directly inside the directory, in the
    order the file system enumerates them. *)
Definition listdir (fs : filesystem) (cwd s : string)
  : oserror + list string :=
  match resolve fs cwd s with
  | inl e => inl e
  | inr d =>
      match fs !! d with
      | Some (Dir _) => inr (omap (λ kv, entry_name d kv.1) (map_to_list fs))
      | Some (File _ _) => inl NotADirectoryError
      | None => inl FileNotFoundError
      end
  end.

(** [os.mkdir] *)
Definition mkdir (fs : filesystem) (cwd s : string)
  : oserror + filesystem :=
  match resolve fs cwd s with
  | inl e => inl e
  | inr q =>
      match fs !! q with
      | Some _ => inl FileExistsError
      | None =>
          match fs !! removelast q with
          | Some (Dir true) => inr (<[q := Dir true]> fs)
          | Some (Dir false) => inl PermissionError
          | Some (File _ _) => inl NotADirectoryError
          | None => inl FileNotFoundError
          end
      end
  end.

(** What [requests.get] hands back: the final response of the exchange. *)
Record response := Response {
  status_code : Z;
  reason : string;
  url : string;
  content : list byte;
}.

(** [requests.get(url)] either raises a [RequestException] (DNS,
    connection, invalid URL, ...) carrying a message, or returns. *)
Inductive http_result :=
| Failed (msg : string)
| Responded (r : response).

(** The mutable world: the file system and what was printed. *)
Record world := World {
  w_fs : filesystem;
  w_stdout : list string;
}.

(** What the process is started with. *)
Record env := Env {
  home : string;                       (* [os.path.expanduser("~")] *)
  cwd : string;                        (* the working directory *)
  http_get : string → http_result;     (* the network, seen from [requests.get] *)
}.

End OS.

(** ** The script *)

Module Nula.

Import posixpath OS.

(** The exceptions that can travel through the script. *)
Inductive exn :=
| RequestException (msg : string)   (* [requests.RequestException], [str(e)] *)
| OSError (e : oserror)
| SystemExit (code : Z)
| IndexError
| RecursionError.

Inductive result (A : Type) :=
| Val (a : A)
| Exn (e : exn).
Arguments Val {A} a.
Arguments Exn {A} e.

(** Statements run in a state and exception monad over the world. *)
Definition M (A : Type) : Type := world → result A * world.

Definition ret {A} (a : A) : M A := λ w, (Val a, w).

Definition bind {A B} (m : M A) (k : A → M B) : M B :=
  λ w, match m w with
       | (Val a, w') => k a w'
       | (Exn e, w') => (Exn e, w')
       end.

Definition raise {A} (e : exn) : M A := λ w, (Exn e, w).

Declare Scope nula_scope.
Delimit Scope nula_scope with nula.
Notation "x <~ c ; k" := (bind c (λ x, k))
  (at level 20, c at level 100, k at level 200, only parsing) : nula_scope.
Notation "c ;; k" := (bind c (λ _, k))
  (at level 100, k at level 200, only parsing, right associativity) : nula_scope.
Open Scope nula_scope.

(** [try: body except requests.RequestException as e: handler(str(e))] *)
Definition try_except_RequestException {A} (body : M A) (handler : string → M A)
  : M A :=
  λ w, match body w with
       | (Exn (RequestException msg), w') => handler msg w'
       | r => r
       end.

(** [try: body except FileExistsError: pass] *)
Definition try_except_FileExistsError (body : M unit) : M unit :=
  λ w, match body w with
       | (Exn (OSError FileExistsError), w') => (Val tt, w')
       | r => r
       end.

(** [for x in l: body(x)] *)
Fixpoint for_each {A} (l : list A) (body : A → M unit) : M unit :=
  match l with
  | [] => ret tt
  | x :: l' => body x ;; for_each l' body
  end.

(** A file-system call that only inspects the world. *)
Definition query {A} (f : filesystem → A) : M A := λ w, (Val (f (w_fs w)), w).

(** A file-system call that may fail with an [OSError] or change the
    file system. *)
Definition update (f : filesystem → oserror + filesystem) : M unit :=
  λ w, match f (w_fs w) with
       | inl err => (Exn (OSError err), w)
       | inr fs' => (Val tt, World fs' (w_stdout w))
       end.

(** A file-system call that may fail or return a value. *)
Definition attempt {A} (f : filesystem → oserror + A) : M A :=
  λ w, match f (w_fs w) with
       | inl err => (Exn (OSError err), w)
       | inr a => (Val a, w)
       end.

Definition print (line : string) : M unit :=
  λ w, (Val tt, World (w_fs w) (w_stdout w ++ [line])).

Definition sys_exit {A} (code : Z) : M A := raise (SystemExit code).

(** [l[i]] *)
Definition index (l : list string) (i : nat) : M string :=
  match l !! i with
  | Some x => ret x
  | None => raise IndexError
  end.

Section Script.

Context (e : env).

Definition os_path_exists (s : string) : M bool :=
  query (λ fs, path_exists fs (cwd e) s).

Definition os_path_isdir (s : string) : M bool :=
  query (λ fs, path_isdir fs (cwd e) s).

(** [os.getcwd()]: fails once the working directory is gone. *)
Definition os_getcwd : M string :=
  attempt (λ fs, if path_isdir fs (cwd e) (cwd e) then inr (cwd e)
                 else inl FileNotFoundError).

Definition os_listdir (s : string) : M (list string) :=
  attempt (λ fs, listdir fs (cwd e) s).

Definition os_mkdir (s : string) : M unit :=
  update (λ fs, mkdir fs (cwd e) s).

(** [with open(s, "wb") as f: f.write(data)] *)
Definition open_wb_write (s : string) (data : list byte) : M unit :=
  update (λ fs, write_file fs (cwd e) s data).

(** [os.makedirs(name)] with the default [exist_ok=False]; [fuel] bounds
    the recursion on the ever shorter [head]. *)
Fixpoint makedirs_rec (fuel : nat) (name : string) : M unit :=
  match fuel with
  | O => raise RecursionError
  | S fuel' =>
      let '(head, tail) :=
        (let ht := split name in
         if bool_decide (ht.2 = "") then split ht.1 else ht) in
      head_exists <~ os_path_exists head ;
      if negb (bool_decide (head = "")) && negb (bool_decide (tail = ""))
         && negb head_exists
      then
        try_except_FileExistsError (makedirs_rec fuel' head) ;;
        if bool_decide (tail = ".") then ret tt else os_mkdir name
      else os_mkdir name
  end.

Definition os_makedirs (name : string) : M unit :=
  makedirs_rec (S (String.length name)) name.

(** [shutil.copyfile(src, dst)] *)
Definition shutil_copyfile (src dst : string) : M unit :=
  same <~ query (λ fs, samefile fs (cwd e) src dst) ;
  if same then raise (OSError SameFileError)
  else
    data <~ attempt (λ fs, read_file fs (cwd e) src) ;
    open_wb_write dst data.2.

(** [shutil.copymode(src, dst)] *)
Definition shutil_copymode (src dst : string) : M unit :=
  st <~ attempt (λ fs, read_file fs (cwd e) src) ;
  update (λ fs, chmod fs (cwd e) dst st.1).

(** [shutil.copy(src, dst)] *)
Definition shutil_copy (src dst : string) : M string :=
  dst_is_dir <~ os_path_isdir dst ;
  let dst := if dst_is_dir then join dst (basename src) else dst in
  shutil_copyfile src dst ;;
  shutil_copymode src dst ;;
  ret dst.

(** [requests.get(url)] *)
Definition requests_get (u : string) : M response :=
  λ w, match http_get e u with
       | Failed msg => (Exn (RequestException msg), w)
       | Responded r => (Val r, w)
       end.

(** [Response.raise_for_status()]: an [HTTPError] exactly for the 4xx and
    5xx status codes. *)
Definition raise_for_status (r : response) : M unit :=
  if (400 <=? status_code r) && (status_code r <? 500) then
    raise (RequestException
             (pretty (status_code r) +:+ " Client Error: " +:+ reason r
              +:+ " for url: " +:+ url r))
  else if (500 <=? status_code r) && (status_code r <? 600) then
    raise (RequestException
             (pretty (status_code r) +:+ " Server Error: " +:+ reason r
              +:+ " for url: " +:+ url r))
  else ret tt.

(** Lines 12-14 *)
Definition home_dir : string := home e.
Definition nula_dir : string := join home_dir ".nula".
Definition lib_dir : string := join nula_dir "lib".

(** Lines 16-19 *)
Definition init : M unit :=
  nula_exists <~ os_path_exists nula_dir ;
  (if negb nula_exists then os_makedirs nula_dir else ret tt) ;;
  lib_exists <~ os_path_exists lib_dir ;
  if negb lib_exists then os_makedirs lib_dir else ret tt.

(** Line 23 *)
Definition request_url (pkg : string) : string :=
  "https://hypothetical-nula-repo.com/libs/" +:+ pkg +:+ ".nula".

(** Line 27 *)
Definition lib_path (pkg : string) : string :=
  join lib_dir (pkg +:+ ".nula").

(** Lines 32-37, the block under [# Copy to project if exists] *)
Definition project_sync (lib_path : string) : M unit :=
  current_dir <~ os_getcwd ;
  let project_lib := join current_dir "lib" in
  project_lib_exists <~ os_path_exists project_lib ;
  if project_lib_exists then
    shutil_copy lib_path project_lib ;;
    print "Copied to project lib"
  else ret tt.

(** Lines 21-39 *)
Definition install_pkg (pkg : string) : M unit :=
  let url := request_url pkg in
  try_except_RequestException
    (response <~ requests_get url ;
     raise_for_status response ;;
     let lib_path := lib_path pkg in
     open_wb_write lib_path (content response) ;;
     print ("Installed " +:+ pkg +:+ " from " +:+ url) ;;
     project_sync lib_path)
    (λ err, print ("Error installing " +:+ pkg +:+ ": " +:+ err)).

(** Lines 41-48 *)
Definition list_pkgs : M unit :=
  pkgs <~ os_listdir lib_dir ;
  match pkgs with
  | _ :: _ =>
      print "Installed packages:" ;;
      for_each pkgs (λ p, print ("- " +:+ p))
  | [] => print "No packages installed."
  end.

(** Lines 50-64 *)
Definition dispatcher (argv : list string) : M unit :=
  if Z.of_nat (length argv) <? 2 then
    print "Usage: nula-packages [install <pkg> | list]" ;;
    sys_exit 1
  else
    command <~ index argv 1 ;
    if bool_decide (command = "install") then
      if Z.of_nat (length argv) <? 3 then
        print "Usage: nula-packages install <pkg>" ;;
        sys_exit 1
      else
        pkg <~ index argv 2 ;
        install_pkg pkg
    else if bool_decide (command = "list") then list_pkgs
    else
      print ("Unknown command: " +:+ command) ;;
      sys_exit 1.

(** The module body, top to bottom. *)
Definition script (argv : list string) : M unit :=
  init ;; dispatcher argv.

End Script.

(** How the interpreter ends the process: status 0 when the module body
    runs to its end, the code of a [SystemExit], and status 1 after
    printing a traceback for any other uncaught exception. *)
Record process_end := ProcessEnd {
  exit_status : Z;
  traceback : option exn;
  final : world;
}.

Definition finish (r : result unit * world) : process_end :=
  match r with
  | (Val _, w) => ProcessEnd 0 None w
  | (Exn (SystemExit code), w) => ProcessEnd code None w
  | (Exn x, w) => ProcessEnd 1 (Some x) w
  end.

Definition run (e : env) (argv : list string) (w : world) : process_end :=
  finish (script e argv w).

End Nula.

(** ** Vocabulary of the specification *)

Module Spec.

Import posixpath OS Nula.

(** An ordinary entry name: resolution appends it to the directory. *)
Definition plain (c : string) : Prop := c ≠ "" ∧ c ≠ "." ∧ c ≠ "..".

(** [s[-1]], when there is one. *)
Fixpoint last_char (s : string) : option ascii :=
  match s with
  | EmptyString => None
  | String c r => match r with EmptyString => Some c | _ => last_char r end
  end.

(** The status codes [raise_for_status] lets through. *)
Definition passes (r : response) : Prop :=
  ¬ (400 ≤ status_code r < 600).

(** [str(e)] of the [HTTPError] that [raise_for_status] raises. *)
Definition http_error_msg (r : response) : string :=
  pretty (status_code r)
  +:+ (if status_code r <? 500 then " Client Error: " else " Server Error: ")
  +:+ reason r +:+ " for url: " +:+ url r.

(** The two lines [install_pkg] can print about package [p]. *)
Definition installed_line (p : string) : string :=
  "Installed " +:+ p +:+ " from " +:+ request_url p.

Definition error_line (p cause : string) : string :=
  "Error installing " +:+ p +:+ ": " +:+ cause.

(** The ways the request of [install_pkg pkg] fails, each with the text
    of its [RequestException]: no response at all, or a response
    [raise_for_status] rejects. *)
Inductive request_fails (e : env) (pkg : string) : string → Prop :=
| no_response msg :
    http_get e (request_url pkg) = Failed msg →
    request_fails e pkg msg
| error_status r :
    http_get e (request_url pkg) = Responded r →
    400 ≤ status_code r < 600 →
    request_fails e pkg (http_error_msg r).

(** The command lines the dispatcher rejects, each with the line it
    prints: no command, [install] without a package, a command that is
    neither [install] nor [list]. *)
Inductive bad_arguments : list string → string → Prop :=
| no_command argv :
    (length argv < 2)%nat →
    bad_arguments argv "Usage: nula-packages [install <pkg> | list]"
| no_package prog :
    bad_arguments [prog; "install"] "Usage: nula-packages install <pkg>"
| unknown_command prog command rest :
    command ≠ "install" → command ≠ "list" →
    bad_arguments (prog :: command :: rest) ("Unknown command: " +:+ command).

(** The 2xx status codes. *)
Definition is_2xx (r : response) : Prop := 200 ≤ status_code r < 300.

(** Directory [d] has an entry called [n]. *)
Definition has_entry (fs : filesystem) (d : path) (n : string) : Prop :=
  is_Some (fs !! (d ++ [n])).

(** Directory [d] has a regular file called [n] holding [data]. *)
Definition holds_file (fs : filesystem) (d : path) (n : string)
  (data : list byte) : Prop :=
  ∃ m, fs !! (d ++ [n]) = Some (File m data).

(** [fs'] is [fs] with, possibly, more directories: every path either
    holds what it held, or was absent and is now a fresh directory. *)
Definition extends_with_dirs (fs fs' : filesystem) : Prop :=
  ∀ k, fs' !! k = fs !! k ∨ (fs !! k = None ∧ fs' !! k = Some (Dir true)).

(** Nothing of [fs] is lost in [fs']: what existed still exists, and the
    directories are the same ones. *)
Definition keeps (fs fs' : filesystem) : Prop :=
  (∀ k, is_dir fs k = is_dir fs' k)
  ∧ (∀ k, is_Some (fs !! k) → is_Some (fs' !! k)).

End Spec.

(** ** Concrete worlds *)

Module Scenario.

Import posixpath OS Nula.

(** The four bytes of a served artifact, and of a later revision. *)
Definition artifact : list byte := [x6e; x75; x6c; x61].
Definition artifact' : list byte := [x4e; x55; x4c; x41; x32].

(** A server that answers every URL with the given status and body. *)
Definition serves (status : Z) (reason : string) (data : list byte)
  : string → http_result :=
  λ u, Responded (Response status reason u data).

(** A network without route to the host. *)
Definition unreachable : string → http_result :=
  λ _, Failed "Connection refused".

(** User [u], working in [/proj]. *)
Definition user (net : string → http_result) : env :=
  Env "/home/u" "/proj" net.

(** A machine on which the script has already run once: the cache
    directories exist and are empty, [/proj] has no [lib]. *)
Definition fresh : filesystem :=
  list_to_map
    [([], Dir false);
     (["home"], Dir false);
     (["home"; "u"], Dir true);
     (["home"; "u"; ".nula"], Dir true);
     (["home"; "u"; ".nula"; "lib"], Dir true);
     (["proj"], Dir true)].

(** The same machine before the script ever ran: no [~/.nula] yet. *)
Definition first_run : filesystem :=
  list_to_map
    [([], Dir false);
     (["home"], Dir false);
     (["home"; "u"], Dir true);
     (["proj"], Dir true)].

(** The library directory of [user], resolved. *)
Definition cache : list string := ["home"; "u"; ".nula"; "lib"].

(** [/proj/lib] is a directory. *)
Definition with_project_lib : filesystem :=
  <[["proj"; "lib"] := Dir true]> fresh.

(** [/proj/lib] is a directory the user may not write. *)
Definition with_readonly_project_lib : filesystem :=
  <[["proj"; "lib"] := Dir false]> fresh.

(** [/proj/lib] is a regular file. *)
Definition with_lib_file : filesystem :=
  <[["proj"; "lib"] := File true [x00]]> fresh.

(** The cache already holds two packages. *)
Definition with_two_packages : filesystem :=
  <[cache ++ ["b.nula"] := File true artifact']>
    (<[cache ++ ["a.nula"] := File true artifact]> fresh).


(** [~/.nula/lib] is a regular file. *)
Definition cache_is_file : filesystem :=
  list_to_map
    [([], Dir false);
     (["home"], Dir false);
     (["home"; "u"], Dir true);
     (["home"; "u"; ".nula"], Dir true);
     (["home"; "u"; ".nula"; "lib"], File true []);
     (["proj"], Dir true)].

End Scenario.

(** * Verification *)

Import posixpath OS Nula Spec Scenario.

(** ** Facts about the path functions *)

Lemma components_nonempty s : components s ≠ [].
Proof.
  destruct s as [|c r]; simpl; [done|].
  case_bool_decide; [done|]. by destruct (components r).
Qed.

Lemma components_app_sep a b :
  components (a +:+ "/" +:+ b) = components a ++ components b.
Proof.
  induction a as [|c a IH]; simpl; [done|].
  case_bool_decide; [by rewrite IH|].
  rewrite IH. pose proof (components_nonempty a).
  by destruct (components a).
Qed.

Lemma components_no_sep s : has_sep s = false → components s = [s].
Proof.
  induction s as [|c r IH]; simpl; [done|].
  intros [Hc Hr]%orb_false_elim. rewrite Hc, (IH Hr). done.
Qed.

Lemma components_app_no_sep a b :
  has_sep b = false →
  components (a +:+ b) =
    removelast (components a) ++ [List.last (components a) "" +:+ b].
Proof.
  intros Hb. induction a as [|c a IH]; simpl.
  - by apply components_no_sep.
  - pose proof (components_nonempty a) as Hne. case_bool_decide.
    + rewrite IH. destruct (components a); [done|]. done.
    + rewrite IH. destruct (components a) as [|h t]; [done|].
      destruct t as [|h' t]; simpl; [done|]. done.
Qed.

Lemma has_sep_app a b : has_sep (a +:+ b) = has_sep a || has_sep b.
Proof. induction a as [|c a IH]; simpl; [done|]. rewrite IH. by rewrite orb_assoc. Qed.

Lemma startswith_sep_app a b :
  a ≠ "" → startswith_sep (a +:+ b) = startswith_sep a.
Proof. by destruct a. Qed.

Lemma startswith_sep_no_sep s : has_sep s = false → startswith_sep s = false.
Proof. destruct s; simpl; [done|]. by intros [? ?]%orb_false_elim. Qed.

Lemma endswith_sep_app a b :
  b ≠ "" → endswith_sep (a +:+ b) = endswith_sep b.
Proof.
  intros Hb. induction a as [|c a IH]; [done|].
  cbn [String.append]. simpl. rewrite IH.
  destruct (a +:+ b) eqn:E; [|done].
  destruct a; simpl in E; [done|discriminate].
Qed.

Lemma app_empty_inv a b : a +:+ b = "" → a = "" ∧ b = "".
Proof. destruct a; simpl; [done|discriminate]. Qed.

Lemma join_relative a b :
  a ≠ "" → endswith_sep a = false → startswith_sep b = false →
  join a b = a +:+ "/" +:+ b.
Proof.
  intros Ha Hend Hb. unfold join. rewrite Hb, Hend.
  by rewrite bool_decide_eq_false_2.
Qed.

Lemma string_app_cons x (a b : string) : String x a +:+ b = String x (a +:+ b).
Proof. reflexivity. Qed.

Lemma string_app_assoc (a b c : string) : (a +:+ b) +:+ c = a +:+ (b +:+ c).
Proof.
  induction a as [|x a IH]; [done|]. rewrite !string_app_cons. by f_equal.
Qed.

Lemma join_ends_with a b :
  startswith_sep b = false → ∃ x, join a b = x +:+ b.
Proof.
  intros Hb. unfold join. rewrite Hb.
  destruct (bool_decide (a = "") || endswith_sep a).
  - by exists a.
  - exists (a +:+ "/"). by rewrite string_app_assoc.
Qed.

Lemma last_app_nonempty {A} (l1 l2 : list A) d :
  l2 ≠ [] → List.last (l1 ++ l2) d = List.last l2 d.
Proof.
  intros Hne. destruct (exists_last Hne) as (l & x & ->).
  by rewrite app_assoc, !last_last.
Qed.

Lemma basename_app_sep a b : basename (a +:+ "/" +:+ b) = basename b.
Proof.
  unfold basename. rewrite components_app_sep.
  apply last_app_nonempty, components_nonempty.
Qed.

Lemma basename_no_sep s : has_sep s = false → basename s = s.
Proof. intros H. unfold basename. by rewrite components_no_sep. Qed.

Lemma basename_app_no_sep a b :
  has_sep b = false → basename (a +:+ b) = basename a +:+ b.
Proof.
  intros Hb. unfold basename.
  by rewrite components_app_no_sep, last_last.
Qed.

Lemma has_sep_basename s : has_sep (basename s) = false.
Proof.
  unfold basename. induction s as [|c r IH]; simpl; [done|].
  pose proof (components_nonempty r) as Hne.
  case_bool_decide as Hc.
  - by destruct (components r).
  - destruct (components r) as [|h [|h' t]]; simpl in *; [done| |done].
    rewrite IH. by rewrite bool_decide_eq_false_2.
Qed.

(** ** Facts about path resolution *)

Lemma walk_app fs cur cs1 cs2 :
  walk fs cur (cs1 ++ cs2) =
    match walk fs cur cs1 with
    | inl err => inl err
    | inr d => walk fs d cs2
    end.
Proof.
  revert cur. induction cs1 as [|c cs1 IH]; intros cur; simpl; [done|].
  destruct (fs !! cur) as [[]|]; auto.
Qed.

Lemma walk_single fs d c :
  walk fs d [c] = match fs !! d with
                  | None => inl FileNotFoundError
                  | Some (File _ _) => inl NotADirectoryError
                  | Some (Dir _) => inr (step d c)
                  end.
Proof. done. Qed.

Lemma resolve_join fs cwd a b :
  a ≠ "" → endswith_sep a = false → startswith_sep b = false →
  resolve fs cwd (join a b) =
    match resolve fs cwd a with
    | inl err => inl err
    | inr d => walk fs d (components b)
    end.
Proof.
  intros Ha Hend Hb. rewrite join_relative by done. unfold resolve.
  rewrite (bool_decide_eq_false_2 (a = "")) by done.
  rewrite bool_decide_eq_false_2
    by (intros [? _]%app_empty_inv; done).
  rewrite startswith_sep_app, components_app_sep by done.
  destruct (startswith_sep a); rewrite ?app_assoc, walk_app; done.
Qed.

Lemma step_plain cur c : plain c → step cur c = cur ++ [c].
Proof.
  intros (H0 & H1 & H2). unfold step.
  rewrite bool_decide_eq_false_2 by (intros [?|?]; done).
  by rewrite bool_decide_eq_false_2.
Qed.

Lemma plain_nula s : plain (s +:+ ".nula").
Proof. destruct s as [|? [|? [|? ?]]]; repeat split; done. Qed.

Lemma walk_same_dirs fs fs' cur cs r :
  (∀ q, is_dir fs q = is_dir fs' q) →
  walk fs cur cs = inr r → walk fs' cur cs = inr r.
Proof.
  intros Hsame. revert cur. induction cs as [|c cs IH]; intros cur; simpl; [done|].
  specialize (Hsame cur). unfold is_dir in Hsame.
  destruct (fs !! cur) as [[]|], (fs' !! cur) as [[]|]; try done. apply IH.
Qed.

Lemma resolve_same_dirs fs fs' cwd s r :
  (∀ q, is_dir fs q = is_dir fs' q) →
  resolve fs cwd s = inr r ↔ resolve fs' cwd s = inr r.
Proof.
  intros Hsame. unfold resolve. case_bool_decide; [done|].
  split; apply walk_same_dirs; done.
Qed.

Lemma is_dir_insert_file fs q m data k :
  is_dir fs q = false → is_dir (<[q := File m data]> fs) k = is_dir fs k.
Proof.
  intros Hq. unfold is_dir in *. destruct (decide (q = k)) as [->|Hne].
  - rewrite lookup_insert_eq. by destruct (fs !! k) as [[]|].
  - by rewrite lookup_insert_ne.
Qed.

Lemma resolve_insert_file fs q m data cwd s r :
  is_dir fs q = false →
  resolve (<[q := File m data]> fs) cwd s = inr r ↔ resolve fs cwd s = inr r.
Proof.
  intros Hq. apply resolve_same_dirs. intros k. by apply is_dir_insert_file.
Qed.

(** ** Inversion of the file-system calls *)

Lemma write_file_inr fs cwd s data fs' :
  write_file fs cwd s data = inr fs' →
  ∃ q, resolve fs cwd s = inr q ∧ is_dir fs q = false
       ∧ fs' = <[q := File true data]> fs.
Proof.
  unfold write_file, is_dir. intros H.
  destruct (resolve fs cwd s) as [|q]; [done|]. exists q.
  repeat case_match; simplify_eq; done.
Qed.

Lemma read_file_inr fs cwd s m data :
  read_file fs cwd s = inr (m, data) →
  ∃ q, resolve fs cwd s = inr q ∧ fs !! q = Some (File m data).
Proof.
  unfold read_file. intros H.
  destruct (resolve fs cwd s) as [|q]; [done|]. exists q.
  repeat case_match; simplify_eq; done.
Qed.

Lemma chmod_inr_file fs cwd s m fs' q m0 data :
  resolve fs cwd s = inr q → fs !! q = Some (File m0 data) →
  chmod fs cwd s m = inr fs' → fs' = <[q := File m data]> fs.
Proof. unfold chmod. intros -> ->. congruence. Qed.

Lemma samefile_false fs cwd a b qa qb :
  samefile fs cwd a b = false →
  resolve fs cwd a = inr qa → resolve fs cwd b = inr qb →
  is_Some (fs !! qa) → qa ≠ qb.
Proof.
  unfold samefile. intros H Ha Hb Hsome <-. rewrite Ha, Hb in H.
  rewrite !bool_decide_eq_true_2 in H; done.
Qed.

(** ** What a successful [shutil.copy] did *)

Lemma shutil_copy_val e src dst w d w' :
  shutil_copy e src dst w = (Val d, w') →
  ∃ qs qd m data,
    d = (if path_isdir (w_fs w) (cwd e) dst
         then join dst (basename src) else dst)
    ∧ resolve (w_fs w) (cwd e) src = inr qs
    ∧ w_fs w !! qs = Some (File m data)
    ∧ resolve (w_fs w) (cwd e) d = inr qd
    ∧ qd ≠ qs
    ∧ is_dir (w_fs w) qd = false
    ∧ w' = World (<[qd := File m data]> (w_fs w)) (w_stdout w).
Proof.
  destruct w as [fs out].
  unfold shutil_copy, shutil_copyfile, shutil_copymode, open_wb_write,
    os_path_isdir, bind, query, attempt, update, raise, ret. simpl.
  set (d0 := if path_isdir fs (cwd e) dst then _ else _).
  destruct (samefile fs (cwd e) src d0) eqn:Hsame; simpl; [done|].
  destruct (read_file fs (cwd e) src) as [|[m data]] eqn:Hr; simpl; [done|].
  destruct (write_file fs (cwd e) d0 data) as [|fs1] eqn:Hw; simpl; [done|].
  destruct (read_file fs1 (cwd e) src) as [|[m' data']] eqn:Hr2; simpl; [done|].
  destruct (chmod fs1 (cwd e) d0 m') as [|fs2] eqn:Hc; simpl; [done|].
  intros [= <- <-].
  apply read_file_inr in Hr as (qs & Hqs & Hfile).
  apply write_file_inr in Hw as (qd & Hqd & Hnd & ->).
  assert (qs ≠ qd) as Hne by (eapply samefile_false; eauto).
  apply read_file_inr in Hr2 as (qs' & Hqs' & Hfile').
  apply resolve_insert_file in Hqs'; [|done]. simplify_eq.
  rewrite lookup_insert_ne in Hfile' by congruence. simplify_eq.
  eapply chmod_inr_file in Hc;
    [|by apply resolve_insert_file|by apply lookup_insert_eq].
  subst fs2. rewrite insert_insert_eq.
  exists qs, qd, m, data. repeat split; congruence.
Qed.

(** ** The last component of the paths the script builds *)

Lemma last_char_app a b : b ≠ "" → last_char (a +:+ b) = last_char b.
Proof.
  intros Hb. induction a as [|c a IH]; [done|].
  rewrite string_app_cons. simpl. rewrite IH.
  destruct (a +:+ b) eqn:E; [|done].
  by apply app_empty_inv in E as [_ ?].
Qed.

Lemma plain_lib y : plain (y +:+ "lib").
Proof. destruct y as [|? [|? [|? ?]]]; repeat split; done. Qed.

Lemma lib_ne_nula y z : y +:+ "lib" ≠ z +:+ ".nula".
Proof.
  intros H. apply (f_equal last_char) in H.
  rewrite !last_char_app in H by done. done.
Qed.

Lemma resolve_ends fs cwd x b q :
  has_sep b = false → (∀ y, plain (y +:+ b)) →
  resolve fs cwd (x +:+ b) = inr q →
  ∃ d y, q = d ++ [y +:+ b] ∧ is_dir fs d = true.
Proof.
  intros Hb Hplain. unfold resolve. case_bool_decide; [done|].
  rewrite (components_app_no_sep x b Hb).
  set (front := removelast (components x)).
  set (y := List.last (components x) "").
  assert (∀ pre, walk fs [] (pre ++ front ++ [y +:+ b]) = inr q →
                 ∃ d, q = d ++ [y +:+ b] ∧ is_dir fs d = true) as Hwalk.
  { intros pre. rewrite app_assoc, walk_app.
    destruct (walk fs [] (pre ++ front)) as [|d]; [done|].
    rewrite walk_single. unfold is_dir.
    destruct (fs !! d) as [[]|] eqn:Hd; try done.
    rewrite step_plain by done. intros [= <-]. exists d. by rewrite Hd. }
  destruct (startswith_sep (x +:+ b)); intros Hw.
  - destruct (Hwalk [] Hw) as (d & ? & ?). by exists d, y.
  - destruct (Hwalk (components cwd) Hw) as (d & ? & ?). by exists d, y.
Qed.

Lemma lib_path_ends e p : ∃ z, lib_path e p = z +:+ ".nula".
Proof.
  unfold lib_path, join. repeat case_match.
  - by exists p.
  - exists (lib_dir e +:+ p). by rewrite string_app_assoc.
  - exists (lib_dir e +:+ "/" +:+ p). by rewrite !string_app_assoc.
Qed.

Lemma resolve_lib_path fs e p q :
  resolve fs (cwd e) (lib_path e p) = inr q →
  ∃ d z, q = d ++ [z +:+ ".nula"] ∧ is_dir fs d = true.
Proof.
  destruct (lib_path_ends e p) as [z ->].
  apply resolve_ends; [done|]. apply plain_nula.
Qed.

Lemma resolve_project_lib fs c q :
  resolve fs c (join c "lib") = inr q →
  ∃ d y, q = d ++ [y +:+ "lib"] ∧ is_dir fs d = true.
Proof.
  destruct (join_ends_with c "lib") as [x ->]; [done|].
  apply resolve_ends; [done|]. apply plain_lib.
Qed.

(** The cache file and the project's [lib] never resolve to one path. *)
Lemma lib_path_ne_project_lib fs fs' e p q P :
  resolve fs (cwd e) (lib_path e p) = inr q →
  resolve fs' (cwd e) (join (cwd e) "lib") = inr P →
  q ≠ P.
Proof.
  intros (d & z & -> & _)%resolve_lib_path (d' & y & -> & _)%resolve_project_lib.
  intros [_ H]%app_inj_tail. symmetry in H. by apply lib_ne_nula in H.
Qed.

(** ** [install_pkg], path by path *)

Lemma raise_for_status_passes r w :
  passes r → raise_for_status r w = (Val tt, w).
Proof.
  unfold passes, raise_for_status. intros H.
  destruct (Z.leb_spec 400 (status_code r)), (Z.ltb_spec (status_code r) 500),
    (Z.leb_spec 500 (status_code r)), (Z.ltb_spec (status_code r) 600);
    simpl; first [done | lia].
Qed.

Lemma raise_for_status_error r w :
  400 ≤ status_code r < 600 →
  raise_for_status r w = (Exn (RequestException (http_error_msg r)), w).
Proof.
  unfold raise_for_status, http_error_msg. intros H.
  destruct (Z.leb_spec 400 (status_code r)), (Z.ltb_spec (status_code r) 500),
    (Z.leb_spec 500 (status_code r)), (Z.ltb_spec (status_code r) 600);
    simpl; first [done | lia].
Qed.

(** Only an [OSError] leaves the copy and the sync. *)
Lemma shutil_copy_raises e src dst w x w' :
  shutil_copy e src dst w = (Exn x, w') → ∃ err, x = OSError err.
Proof.
  unfold shutil_copy, shutil_copyfile, shutil_copymode, open_wb_write,
    os_path_isdir, bind, query, attempt, update, raise, ret.
  intros H. repeat (case_match; simplify_eq); eauto.
Qed.

Lemma project_sync_raises e lp w x w' :
  project_sync e lp w = (Exn x, w') → ∃ err, x = OSError err.
Proof.
  unfold project_sync, os_getcwd, os_path_exists, print, bind, query, attempt,
    ret.
  intros H. repeat (case_match; simplify_eq); eauto using shutil_copy_raises.
Qed.

Lemma install_pkg_request_failed e p w msg :
  http_get e (request_url p) = Failed msg →
  install_pkg e p w =
    (Val tt, World (w_fs w) (w_stdout w ++ [error_line p msg])).
Proof.
  intros H. unfold install_pkg, try_except_RequestException, bind,
    requests_get. by rewrite H.
Qed.

Lemma install_pkg_http_error e p w r :
  http_get e (request_url p) = Responded r →
  400 ≤ status_code r < 600 →
  install_pkg e p w =
    (Val tt, World (w_fs w) (w_stdout w ++ [error_line p (http_error_msg r)])).
Proof.
  intros H Hs. unfold install_pkg, try_except_RequestException, bind,
    requests_get. rewrite H. by rewrite raise_for_status_error.
Qed.

Lemma install_pkg_fetched e p w r :
  http_get e (request_url p) = Responded r → passes r →
  install_pkg e p w =
    (open_wb_write e (lib_path e p) (content r) ;;
     print (installed_line p) ;;
     project_sync e (lib_path e p)) w.
Proof.
  intros H Hs. unfold install_pkg, try_except_RequestException, bind,
    requests_get. rewrite H, raise_for_status_passes by done.
  unfold open_wb_write, update, print.
  destruct (write_file _ _ _ _) as [err|fs1]; [done|].
  fold (installed_line p).
  destruct (project_sync e (lib_path e p) _) as [[[]|x] w1] eqn:Hsync; [done|].
  by apply project_sync_raises in Hsync as [err ->].
Qed.

Lemma project_lib_shape c :
  join c "lib" ≠ "" ∧ endswith_sep (join c "lib") = false.
Proof.
  destruct (join_ends_with c "lib") as [x ->]; [done|]. split.
  - by intros [_ ?]%app_empty_inv.
  - by rewrite endswith_sep_app.
Qed.

Lemma basename_lib_path e p : ∃ y, basename (lib_path e p) = y +:+ ".nula".
Proof.
  destruct (lib_path_ends e p) as [z ->]. exists (basename z).
  by apply basename_app_no_sep.
Qed.

(** Where [shutil.copy] puts a file named like the cache file when the
    destination is the directory [P]. *)
Lemma resolve_into_dir fs c e p P :
  resolve fs c (join c "lib") = inr P → is_dir fs P = true →
  resolve fs c (join (join c "lib") (basename (lib_path e p)))
  = inr (P ++ [basename (lib_path e p)]).
Proof.
  intros HP Hdir. destruct (project_lib_shape c) as [Hne Hend].
  pose proof (has_sep_basename (lib_path e p)) as Hsep.
  rewrite resolve_join, HP by auto using startswith_sep_no_sep.
  rewrite components_no_sep, walk_single by done.
  unfold is_dir in Hdir. destruct (fs !! P) as [[]|]; try done.
  rewrite step_plain; [done|].
  destruct (basename_lib_path e p) as [y ->]. apply plain_nula.
Qed.

(** Writing the cache file does not change what [<cwd>/lib] is. *)
Lemma project_lib_after_write fs e p q m data :
  resolve fs (cwd e) (lib_path e p) = inr q → is_dir fs q = false →
  let fs1 := <[q := File m data]> fs in
  let X := join (cwd e) "lib" in
  (∀ P, resolve fs1 (cwd e) X = inr P ↔ resolve fs (cwd e) X = inr P)
  ∧ (∀ P, resolve fs (cwd e) X = inr P → fs1 !! P = fs !! P)
  ∧ path_exists fs1 (cwd e) X = path_exists fs (cwd e) X
  ∧ path_isdir fs1 (cwd e) X = path_isdir fs (cwd e) X.
Proof.
  intros Hq Hnd fs1 X.
  assert (∀ P, resolve fs1 (cwd e) X = inr P ↔ resolve fs (cwd e) X = inr P)
    as Hres by (intros P; by apply resolve_insert_file).
  assert (∀ P, resolve fs (cwd e) X = inr P → fs1 !! P = fs !! P) as Hlook.
  { intros P HP. apply lookup_insert_ne.
    eapply lib_path_ne_project_lib; eauto. }
  split_and!; [done|done| |].
  - unfold path_exists. destruct (resolve fs (cwd e) X) as [err|P].
    + destruct (resolve fs1 (cwd e) X) as [|P']; [done|].
      discriminate (proj1 (Hres P') eq_refl).
    + rewrite (proj2 (Hres P) eq_refl). by rewrite (Hlook P eq_refl).
  - unfold path_isdir. destruct (resolve fs (cwd e) X) as [err|P].
    + destruct (resolve fs1 (cwd e) X) as [|P']; [done|].
      discriminate (proj1 (Hres P') eq_refl).
    + rewrite (proj2 (Hres P) eq_refl). unfold is_dir.
      by rewrite (Hlook P eq_refl).
Qed.

(** Every run of [install_pkg] that fetched a passing response and
    returned: the cache file was written at [q], and then either
    [<cwd>/lib] was absent, or it was present at [P] and the copy went to
    [qd], inside [P] when [P] is a directory and onto [P] otherwise. *)
Lemma install_pkg_val e p w r w' :
  http_get e (request_url p) = Responded r → passes r →
  install_pkg e p w = (Val tt, w') →
  ∃ q, resolve (w_fs w) (cwd e) (lib_path e p) = inr q
    ∧ is_dir (w_fs w) q = false
    ∧ let fs1 := <[q := File true (content r)]> (w_fs w) in
      (path_exists (w_fs w) (cwd e) (join (cwd e) "lib") = false
       ∧ w' = World fs1 (w_stdout w ++ [installed_line p]))
      ∨ (∃ P qd,
           resolve (w_fs w) (cwd e) (join (cwd e) "lib") = inr P
           ∧ is_Some (w_fs w !! P)
           ∧ qd = (if is_dir (w_fs w) P
                   then P ++ [basename (lib_path e p)] else P)
           ∧ qd ≠ q
           ∧ is_dir (w_fs w) qd = false
           ∧ w' = World (<[qd := File true (content r)]> fs1)
                    (w_stdout w ++ [installed_line p; "Copied to project lib"])).
Proof.
  intros Hget Hpass. rewrite (install_pkg_fetched e p w r) by done.
  destruct w as [fs out]. unfold bind, open_wb_write, update, print. simpl.
  destruct (write_file fs (cwd e) (lib_path e p) (content r)) as [|fs1] eqn:Hw;
    [done|].
  apply write_file_inr in Hw as (q & Hq & Hnd & ->).
  destruct (project_lib_after_write fs e p q true (content r) Hq Hnd)
    as (Hres & Hlook & Hex & Hisd).
  set (fs1 := <[q := File true (content r)]> fs) in *.
  set (X := join (cwd e) "lib") in *.
  unfold project_sync, bind, os_getcwd, attempt, os_path_exists, query, ret,
    print. simpl.
  destruct (path_isdir fs1 (cwd e) (cwd e)); [|done]. simpl.
  fold X. rewrite Hex.
  destruct (path_exists fs (cwd e) X) eqn:HX.
  2:{ intros [= <-]. exists q. split_and!; [done|done|]. by left. }
  destruct (shutil_copy e (lib_path e p) X _) as [[d|x] w1] eqn:Hcopy; [|done].
  intros [= <-]. exists q. split_and!; [done|done|]. right.
  apply shutil_copy_val in Hcopy
    as (qs & qd & m & data & -> & Hqs & Hfile & Hqd & Hne & Hndd & ->).
  simpl in *.
  apply resolve_insert_file in Hqs; [|done].
  assert (qs = q) as -> by congruence.
  unfold fs1 in Hfile. rewrite lookup_insert_eq in Hfile.
  injection Hfile as <- <-.
  unfold path_exists in HX.
  destruct (resolve fs (cwd e) X) as [|P] eqn:HP; [done|].
  apply bool_decide_eq_true_1 in HX.
  exists P, qd. split_and!; try done.
  - rewrite Hisd in Hqd. unfold path_isdir in Hqd. rewrite HP in Hqd.
    destruct (is_dir fs P) eqn:HdP.
    + unfold X in Hqd. rewrite (resolve_into_dir fs1 (cwd e) e p P) in Hqd.
      * congruence.
      * by apply Hres.
      * unfold is_dir. rewrite (Hlook P eq_refl). apply HdP.
    + apply Hres in Hqd. congruence.
  - rewrite <- (is_dir_insert_file fs q true (content r) qd Hnd). apply Hndd.
  - by rewrite <- app_assoc.
Qed.

(** [install_pkg] never creates, removes or replaces a directory. *)
Lemma install_pkg_val_dirs e p w r w' :
  http_get e (request_url p) = Responded r → passes r →
  install_pkg e p w = (Val tt, w') →
  ∀ k, is_dir (w_fs w) k = is_dir (w_fs w') k.
Proof.
  intros Hget Hpass Hrun k.
  destruct (install_pkg_val e p w r w' Hget Hpass Hrun)
    as (q & Hq & Hnd & [[_ ->]|(P & qd & _ & _ & _ & _ & Hndd & ->)]); simpl.
  - by rewrite is_dir_insert_file.
  - rewrite !is_dir_insert_file; [done|done|].
    by rewrite is_dir_insert_file.
Qed.

Lemma is_2xx_passes r : is_2xx r → passes r.
Proof. unfold is_2xx, passes. lia. Qed.

(** For a name without separator the cache file is an entry of the
    library directory, under the name [<pkg>.nula]. *)
Lemma resolve_lib_path_plain fs e p L q :
  has_sep p = false →
  resolve fs (cwd e) (lib_dir e) = inr L →
  resolve fs (cwd e) (lib_path e p) = inr q →
  q = L ++ [p +:+ ".nula"].
Proof.
  intros Hp HL. unfold lib_path, lib_dir.
  destruct (project_lib_shape (nula_dir e)) as [Hne Hend].
  assert (has_sep (p +:+ ".nula") = false) as Hsep
    by (by rewrite has_sep_app, Hp).
  rewrite resolve_join by auto using startswith_sep_no_sep.
  fold (lib_dir e). rewrite HL, components_no_sep, walk_single by done.
  destruct (fs !! L) as [[]|]; try done.
  rewrite step_plain by apply plain_nula. congruence.
Qed.

Lemma basename_lib_path_plain e p :
  has_sep p = false → basename (lib_path e p) = p +:+ ".nula".
Proof.
  intros Hp. unfold lib_path, lib_dir.
  destruct (project_lib_shape (nula_dir e)) as [Hne Hend].
  assert (has_sep (p +:+ ".nula") = false) as Hsep
    by (by rewrite has_sep_app, Hp).
  rewrite join_relative by auto using startswith_sep_no_sep.
  rewrite basename_app_sep. by apply basename_no_sep.
Qed.

Lemma install_pkg_val_plain e p w w' r L :
  has_sep p = false →
  http_get e (request_url p) = Responded r → passes r →
  resolve (w_fs w) (cwd e) (lib_dir e) = inr L →
  install_pkg e p w = (Val tt, w') →
  w_fs w' !! (L ++ [p +:+ ".nula"]) = Some (File true (content r)).
Proof.
  intros Hp Hget Hpass HL Hrun.
  destruct (install_pkg_val e p w r w' Hget Hpass Hrun)
    as (q & Hq & Hnd & Hcases).
  rewrite (resolve_lib_path_plain _ e p L q Hp HL Hq) in *.
  destruct Hcases as [[_ ->]|(P & qd & _ & _ & _ & Hne & _ & ->)]; simpl.
  - apply lookup_insert_eq.
  - rewrite lookup_insert_ne by done. apply lookup_insert_eq.
Qed.

(** * The claims *)

(** C1 (amended).  For every package name [p] without a path separator:
    when the GET answers with a 2xx status and [install_pkg] returns, the
    library directory has an entry [p.nula], a regular file whose bytes
    are the response body, and the line
    [Installed <p> from <url>] with the request URL was printed. *)
Theorem install_caches_artifact e p w w' r L :
  has_sep p = false →
  http_get e (request_url p) = Responded r →
  is_2xx r →
  resolve (w_fs w) (cwd e) (lib_dir e) = inr L →
  install_pkg e p w = (Val tt, w') →
  holds_file (w_fs w') L (p +:+ ".nula") (content r)
  ∧ ("Installed " +:+ p +:+ " from " +:+ request_url p) ∈ w_stdout w'.
Proof.
  intros Hp Hget H2xx%is_2xx_passes HL Hrun. split.
  - exists true. by apply (install_pkg_val_plain e p w w' r L).
  - fold (installed_line p).
    destruct (install_pkg_val e p w r w' Hget H2xx Hrun)
      as (q & _ & _ & [[_ ->]|(P & qd & _ & _ & _ & _ & _ & ->)]); simpl;
      set_solver.
Qed.

Lemma install_caches_artifact_witness :
  holds_file
    (w_fs (install_pkg (user (serves 200 "OK" artifact)) "foo"
             (World fresh [])).2)
    cache "foo.nula" artifact
  ∧ "Installed foo from https://hypothetical-nula-repo.com/libs/foo.nula"
    ∈ w_stdout (install_pkg (user (serves 200 "OK" artifact)) "foo"
                  (World fresh [])).2.
Proof.
  apply (install_caches_artifact (user (serves 200 "OK" artifact)) "foo"
           (World fresh []) _ (Response 200 "OK" (request_url "foo") artifact)
           cache).
  - reflexivity.
  - reflexivity.
  - unfold is_2xx; simpl; lia.
  - vm_compute; reflexivity.
  - vm_compute; reflexivity.
Defined.

(** C1 as stated fails for a name that is an absolute path: the GET
    answers 200, [install_pkg] returns and prints its success line, yet
    the library directory stays empty; the bytes went to
    [/proj/x.nula]. *)
Lemma install_absolute_name_misses_cache :
  let e := user (serves 200 "OK" artifact) in
  let w' := (install_pkg e "/proj/x" (World fresh [])).2 in
  http_get e (request_url "/proj/x")
  = Responded (Response 200 "OK" (request_url "/proj/x") artifact)
  ∧ install_pkg e "/proj/x" (World fresh []) = (Val tt, w')
  ∧ resolve fresh (cwd e) (lib_dir e) = inr cache
  ∧ ¬ holds_file (w_fs w') cache ("/proj/x" +:+ ".nula") artifact
  ∧ listdir (w_fs w') (cwd e) (lib_dir e) = inr []
  ∧ w_fs w' !! ["proj"; "x.nula"] = Some (File true artifact).
Proof.
  split_and!; try (vm_compute; reflexivity).
  intros [m Hm]. vm_compute in Hm. discriminate.
Qed.

(** C2 (amended).  For every package name [p]: when the GET answers with
    a 4xx or 5xx status, [install_pkg] returns having left the whole file
    system as it was and having printed exactly one more line,
    [Error installing <p>: <status> Client|Server Error: <reason> for url: <url>]. *)
Theorem install_http_error_writes_nothing e p w r :
  http_get e (request_url p) = Responded r →
  400 ≤ status_code r < 600 →
  install_pkg e p w
  = (Val tt,
     World (w_fs w)
       (w_stdout w
        ++ ["Error installing " +:+ p +:+ ": " +:+ http_error_msg r])).
Proof.
  intros Hget Hstatus.
  unfold install_pkg, try_except_RequestException, bind, requests_get.
  rewrite Hget.
  (* [raise_for_status] raises, nothing after it in the [try] runs *)
  rewrite (raise_for_status_error r w Hstatus).
  (* the handler prints and returns *)
  reflexivity.
Qed.

Lemma install_http_error_writes_nothing_witness :
  install_pkg (user (serves 404 "Not Found" [])) "foo" (World fresh [])
  = (Val tt,
     World fresh
       ["Error installing foo: 404 Client Error: Not Found for url: https://hypothetical-nula-repo.com/libs/foo.nula"]).
Proof.
  apply (install_http_error_writes_nothing (user (serves 404 "Not Found" []))
           "foo" (World fresh [])
           (Response 404 "Not Found" (request_url "foo") [])).
  - reflexivity.
  - simpl; lia.
Defined.

(** C2 as stated fails for a status that is neither 2xx nor an error for
    [raise_for_status]: on [300 Multiple Choices] the body is written to
    the cache, the success line is printed and no error line is. *)
Lemma install_status_300_writes_file :
  let e := user (serves 300 "Multiple Choices" artifact) in
  let w' := (install_pkg e "foo" (World fresh [])).2 in
  http_get e (request_url "foo")
  = Responded (Response 300 "Multiple Choices" (request_url "foo") artifact)
  ∧ ¬ is_2xx (Response 300 "Multiple Choices" (request_url "foo") artifact)
  ∧ install_pkg e "foo" (World fresh []) = (Val tt, w')
  ∧ w_fs w' ≠ fresh
  ∧ w_fs w' !! (cache ++ ["foo.nula"]) = Some (File true artifact)
  ∧ w_stdout w'
    = ["Installed foo from https://hypothetical-nula-repo.com/libs/foo.nula"].
Proof.
  split_and!; try (vm_compute; reflexivity).
  - unfold is_2xx; simpl; lia.
  - intros H. apply (f_equal (λ fs : filesystem, fs !! (cache ++ ["foo.nula"]))) in H.
    vm_compute in H. discriminate.
Qed.

(** The interpreter runs [dispatcher] on the world [init] leaves. *)
Lemma run_after_init e argv w0 w :
  init e w0 = (Val tt, w) → run e argv w0 = finish (dispatcher e argv w).
Proof. intros H. unfold run, script, bind. by rewrite H. Qed.

Lemma dispatcher_install e prog p w :
  dispatcher e [prog; "install"; p] w = install_pkg e p w.
Proof. done. Qed.

(** C5 (amended).  For every run of [install <p>] whose request fails,
    by a [RequestException] of the transport or by a 4xx or 5xx status,
    the exception is handled inside [install_pkg]: one line
    [Error installing <p>: <cause>] is printed, the file system is left
    as it was, and the process ends with status 0 and no traceback. *)
Theorem install_request_failure_recovered e prog p w0 w cause :
  init e w0 = (Val tt, w) →
  request_fails e p cause →
  run e [prog; "install"; p] w0
  = ProcessEnd 0 None
      (World (w_fs w)
         (w_stdout w ++ ["Error installing " +:+ p +:+ ": " +:+ cause])).
Proof.
  intros Hinit Hfail. rewrite (run_after_init e _ w0 w Hinit).
  rewrite dispatcher_install.
  destruct Hfail as [msg Hget|r Hget Hstatus].
  - by rewrite (install_pkg_request_failed e p w msg).
  - by rewrite (install_pkg_http_error e p w r).
Qed.

Lemma install_request_failure_recovered_witness :
  run (user unreachable) ["nula-packages"; "install"; "foo"]
    (World first_run [])
  = ProcessEnd 0 None
      (World fresh ["Error installing foo: Connection refused"])
  ∧ run (user (serves 503 "Service Unavailable" []))
      ["nula-packages"; "install"; "foo"] (World first_run [])
    = ProcessEnd 0 None
        (World fresh
           ["Error installing foo: 503 Server Error: Service Unavailable for url: https://hypothetical-nula-repo.com/libs/foo.nula"]).
Proof.
  split.
  - apply (install_request_failure_recovered (user unreachable)
             "nula-packages" "foo" (World first_run []) (World fresh [])
             "Connection refused").
    + vm_compute; reflexivity.
    + apply no_response. reflexivity.
  - apply (install_request_failure_recovered
             (user (serves 503 "Service Unavailable" []))
             "nula-packages" "foo" (World first_run []) (World fresh [])).
    + vm_compute; reflexivity.
    + apply (error_status _ _
               (Response 503 "Service Unavailable" (request_url "foo") [])).
      * reflexivity.
      * simpl; lia.
Defined.

(** C5 as stated fails for a non-2xx status that [raise_for_status] lets
    through: on [300 Multiple Choices] no error line is printed at all;
    the run prints the success line and caches the body. *)
Lemma install_status_300_prints_no_error :
  let e := user (serves 300 "Multiple Choices" artifact) in
  let ending := run e ["nula-packages"; "install"; "foo"] (World fresh []) in
  http_get e (request_url "foo")
  = Responded (Response 300 "Multiple Choices" (request_url "foo") artifact)
  ∧ ¬ is_2xx (Response 300 "Multiple Choices" (request_url "foo") artifact)
  ∧ exit_status ending = 0
  ∧ w_stdout (final ending)
    = ["Installed foo from https://hypothetical-nula-repo.com/libs/foo.nula"]
  ∧ w_fs (final ending) !! (cache ++ ["foo.nula"]) = Some (File true artifact).
Proof.
  split_and!; try (vm_compute; reflexivity).
  unfold is_2xx; simpl; lia.
Qed.

(** ** The copy fails *)

Lemma shutil_copy_stdout e src dst w res w' :
  shutil_copy e src dst w = (res, w') → w_stdout w' = w_stdout w.
Proof.
  unfold shutil_copy, shutil_copyfile, shutil_copymode, open_wb_write,
    os_path_isdir, bind, query, attempt, update, raise, ret.
  intros H. repeat (case_match; simplify_eq); done.
Qed.

(** C3 (amended).  For every run of [install <p>] in which the request
    passed, the cache file was written and [shutil.copy] into the
    existing [<cwd>/lib] raises: the exception is an [OSError], which the
    handler for [requests.RequestException] does not catch; it leaves
    [install_pkg], the line [Copied to project lib] is not printed, and
    the process ends with a traceback and status 1, not the status 0 of
    a run that succeeds. *)
Theorem project_copy_failure_uncaught e prog p w0 w r fs1 x w2 :
  init e w0 = (Val tt, w) →
  http_get e (request_url p) = Responded r →
  passes r →
  write_file (w_fs w) (cwd e) (lib_path e p) (content r) = inr fs1 →
  path_isdir fs1 (cwd e) (cwd e) = true →
  path_exists fs1 (cwd e) (join (cwd e) "lib") = true →
  shutil_copy e (lib_path e p) (join (cwd e) "lib")
    (World fs1 (w_stdout w ++ [installed_line p])) = (Exn x, w2) →
  (∃ err, x = OSError err)
  ∧ install_pkg e p w = (Exn x, w2)
  ∧ w_stdout w2 = w_stdout w ++ [installed_line p]
  ∧ run e [prog; "install"; p] w0 = ProcessEnd 1 (Some x) w2.
Proof.
  intros Hinit Hget Hpass Hw Hcwd Hex Hcopy.
  assert (install_pkg e p w = (Exn x, w2)) as Hrun.
  { rewrite (install_pkg_fetched e p w r) by done.
    unfold bind, open_wb_write, update, print. rewrite Hw. simpl.
    unfold project_sync, bind, os_getcwd, attempt, os_path_exists, query.
    simpl. rewrite Hcwd. simpl. rewrite Hex. by rewrite Hcopy. }
  destruct (shutil_copy_raises _ _ _ _ _ _ Hcopy) as [err ->].
  split_and!; [by exists err|done| |].
  - by rewrite (shutil_copy_stdout _ _ _ _ _ _ Hcopy).
  - rewrite (run_after_init e _ w0 w Hinit), dispatcher_install.
    by rewrite Hrun.
Qed.

Lemma project_copy_failure_uncaught_witness :
  (∃ err, OSError PermissionError = OSError err)
  ∧ install_pkg (user (serves 200 "OK" artifact)) "foo"
      (World with_readonly_project_lib [])
    = (Exn (OSError PermissionError),
       World (<[cache ++ ["foo.nula"] := File true artifact]>
                with_readonly_project_lib)
         [installed_line "foo"])
  ∧ w_stdout
      (World (<[cache ++ ["foo.nula"] := File true artifact]>
                with_readonly_project_lib)
         [installed_line "foo"])
    = [] ++ [installed_line "foo"]
  ∧ run (user (serves 200 "OK" artifact)) ["nula-packages"; "install"; "foo"]
      (World with_readonly_project_lib [])
    = ProcessEnd 1 (Some (OSError PermissionError))
        (World (<[cache ++ ["foo.nula"] := File true artifact]>
                  with_readonly_project_lib)
           [installed_line "foo"]).
Proof.
  apply (project_copy_failure_uncaught (user (serves 200 "OK" artifact))
           "nula-packages" "foo"
           (World with_readonly_project_lib [])
           (World with_readonly_project_lib [])
           (Response 200 "OK" (request_url "foo") artifact)
           (<[cache ++ ["foo.nula"] := File true artifact]>
              with_readonly_project_lib)).
  - vm_compute; reflexivity.
  - reflexivity.
  - unfold passes; simpl; lia.
  - vm_compute; reflexivity.
  - vm_compute; reflexivity.
  - vm_compute; reflexivity.
  - vm_compute; reflexivity.
Defined.

(** C3 as stated fails when [./lib] is a directory the user may not
    write: the [PermissionError] of the copy ends the process with a
    traceback and status 1, while the same command with a writable
    [./lib] ends with status 0. *)
Lemma readonly_project_lib_exits_1 :
  let e := user (serves 200 "OK" artifact) in
  let argv := ["nula-packages"; "install"; "foo"] in
  let failed := run e argv (World with_readonly_project_lib []) in
  let succeeded := run e argv (World with_project_lib []) in
  exit_status failed = 1
  ∧ traceback failed = Some (OSError PermissionError)
  ∧ w_stdout (final failed)
    = ["Installed foo from https://hypothetical-nula-repo.com/libs/foo.nula"]
  ∧ exit_status succeeded = 0
  ∧ exit_status failed ≠ exit_status succeeded.
Proof. split_and!; try (vm_compute; reflexivity). vm_compute. discriminate. Qed.

(** ** Listing *)

Lemma entry_name_Some d q n : entry_name d q = Some n ↔ q = d ++ [n].
Proof.
  unfold entry_name. split.
  - destruct q as [|x q'] eqn:E; [done|]. rewrite <- E.
    case_bool_decide as Hd; [|done]. intros [= <-]. subst d.
    apply app_removelast_last. by rewrite E.
  - intros ->. destruct (d ++ [n]) eqn:E; [by destruct d|]. rewrite <- E.
    by rewrite removelast_last, last_last, bool_decide_eq_true_2.
Qed.

Lemma NoDup_omap_inj {A B} (g : A → option B) (l : list A) :
  (∀ x y z, g x = Some z → g y = Some z → x = y) →
  NoDup l → NoDup (omap g l).
Proof.
  intros Hinj. induction 1 as [|x l Hx Hl IH]; simpl; [constructor|].
  destruct (g x) as [z|] eqn:Hgx; [|done].
  constructor; [|done]. rewrite list_elem_of_omap. intros (y & Hy & Hgy).
  by rewrite (Hinj x y z Hgx Hgy) in Hx.
Qed.

Lemma listdir_entries fs c s d :
  resolve fs c s = inr d → is_dir fs d = true →
  ∃ names, listdir fs c s = inr names
    ∧ NoDup names
    ∧ ∀ n, n ∈ names ↔ has_entry fs d n.
Proof.
  intros Hd Hdir. unfold listdir. rewrite Hd. unfold is_dir in Hdir.
  destruct (fs !! d) as [[]|]; try done.
  eexists. split; [done|]. split.
  - assert (omap (λ kv : list string * node, entry_name d kv.1) (map_to_list fs)
            = omap (entry_name d) (map_to_list fs).*1) as ->.
    { induction (map_to_list fs) as [|[k v] l IH]; csimpl; [done|].
      by rewrite IH. }
    apply NoDup_omap_inj; [|apply NoDup_fst_map_to_list].
    intros x y z Hx%entry_name_Some Hy%entry_name_Some. congruence.
  - intros n. rewrite list_elem_of_omap. unfold has_entry. split.
    + intros ([k v] & Hin%elem_of_map_to_list & Hk%entry_name_Some).
      simpl in Hk. subst k. by exists v.
    + intros [v Hv]. exists (d ++ [n], v). split.
      * by apply elem_of_map_to_list.
      * by apply entry_name_Some.
Qed.

Lemma for_each_print {A} (f : A → string) (l : list A) w :
  for_each l (λ x, print (f x)) w
  = (Val tt, World (w_fs w) (w_stdout w ++ map f l)).
Proof.
  revert w. induction l as [|x l IH]; intros [fs out]; simpl.
  - unfold ret. by rewrite app_nil_r.
  - unfold bind, print. simpl. rewrite IH. simpl.
    by rewrite <- app_assoc.
Qed.

(** C4.  Whenever the library directory is a directory, [list_pkgs]
    prints from [os.listdir], whose result holds each entry name of the
    directory once and nothing else: for a non-empty result the header
    and then one line [- <name>] per entry, with the bare entry name, in
    the order of the enumeration; for an empty one the single line
    [No packages installed.]. *)
Theorem list_prints_entries e w L :
  resolve (w_fs w) (cwd e) (lib_dir e) = inr L →
  is_dir (w_fs w) L = true →
  ∃ names,
    listdir (w_fs w) (cwd e) (lib_dir e) = inr names
    ∧ NoDup names
    ∧ (∀ n, n ∈ names ↔ has_entry (w_fs w) L n)
    ∧ list_pkgs e w
      = (Val tt,
         World (w_fs w)
           (w_stdout w
            ++ match names with
               | [] => ["No packages installed."]
               | _ :: _ =>
                   "Installed packages:" :: map (λ n, "- " +:+ n) names
               end)).
Proof.
  intros HL Hdir.
  destruct (listdir_entries _ _ _ _ HL Hdir) as (names & Hls & Hnd & Hin).
  exists names. split_and!; try done.
  unfold list_pkgs, bind, os_listdir, attempt. rewrite Hls.
  destruct names as [|n names]; [done|].
  unfold print at 1. cbv beta iota.
  rewrite (for_each_print (λ n, "- " +:+ n)). cbn [w_fs w_stdout].
  by rewrite <- app_assoc.
Qed.

Lemma list_prints_entries_witness :
  ∃ names,
    listdir with_two_packages "/proj" "/home/u/.nula/lib" = inr names
    ∧ NoDup names
    ∧ (∀ n, n ∈ names ↔ has_entry with_two_packages cache n)
    ∧ list_pkgs (user unreachable) (World with_two_packages [])
      = (Val tt,
         World with_two_packages
           ([] ++ match names with
                  | [] => ["No packages installed."]
                  | _ :: _ =>
                      "Installed packages:" :: map (λ n, "- " +:+ n) names
                  end)).
Proof.
  apply (list_prints_entries (user unreachable) (World with_two_packages [])
           cache).
  - vm_compute; reflexivity.
  - vm_compute; reflexivity.
Defined.

(** ** Project sync *)

(** C7.  Take an install whose request answered 2xx, whose cache file
    was written and whose working directory still exists.  If
    [<cwd>/lib] does not exist, [install_pkg] returns without error,
    having changed nothing but the cache file and printed nothing but
    the success line.  If [<cwd>/lib] is a directory and [install_pkg]
    returns, that directory then has the file
    [basename(lib_path)] (which is [<p>.nula] for a name without
    separator) holding the response body, whatever was there under that
    name before, and [Copied to project lib] is the last line printed. *)
Theorem project_sync_mirrors e p w r fs1 :
  http_get e (request_url p) = Responded r →
  is_2xx r →
  write_file (w_fs w) (cwd e) (lib_path e p) (content r) = inr fs1 →
  path_isdir fs1 (cwd e) (cwd e) = true →
  (path_exists (w_fs w) (cwd e) (join (cwd e) "lib") = false →
     install_pkg e p w
     = (Val tt, World fs1 (w_stdout w ++ [installed_line p])))
  ∧ (∀ P w',
       resolve (w_fs w) (cwd e) (join (cwd e) "lib") = inr P →
       is_dir (w_fs w) P = true →
       install_pkg e p w = (Val tt, w') →
       w_fs w' !! (P ++ [basename (lib_path e p)])
       = Some (File true (content r))
       ∧ w_stdout w'
         = w_stdout w ++ [installed_line p; "Copied to project lib"])
  ∧ (has_sep p = false → basename (lib_path e p) = p +:+ ".nula").
Proof.
  intros Hget H2xx%is_2xx_passes Hw Hcwd. split_and!.
  - intros Hno. rewrite (install_pkg_fetched e p w r) by done.
    unfold bind, open_wb_write, update, print. rewrite Hw. simpl.
    unfold project_sync, bind, os_getcwd, attempt, os_path_exists, query.
    simpl. rewrite Hcwd. simpl.
    apply write_file_inr in Hw as (q & Hq & Hnd & ->).
    destruct (project_lib_after_write (w_fs w) e p q true (content r) Hq Hnd)
      as (_ & _ & -> & _).
    by rewrite Hno.
  - intros P w' HP Hdir Hrun.
    destruct (install_pkg_val e p w r w' Hget H2xx Hrun)
      as (q & Hq & Hnd & [[Hno _]|(P' & qd & HP' & _ & -> & _ & _ & ->)]).
    + unfold path_exists in Hno. rewrite HP in Hno.
      unfold is_dir in Hdir. destruct (w_fs w !! P); [|done].
      by rewrite bool_decide_eq_true_2 in Hno by eauto.
    + assert (P' = P) as -> by congruence. rewrite Hdir. simpl.
      by rewrite lookup_insert_eq.
  - apply basename_lib_path_plain.
Qed.

Lemma project_sync_mirrors_witness :
  install_pkg (user (serves 200 "OK" artifact)) "foo" (World fresh [])
  = (Val tt,
     World (<[cache ++ ["foo.nula"] := File true artifact]> fresh)
       [installed_line "foo"])
  ∧ w_fs (install_pkg (user (serves 200 "OK" artifact)) "foo"
            (World with_project_lib [])).2 !! ["proj"; "lib"; "foo.nula"]
    = Some (File true artifact)
  ∧ w_stdout (install_pkg (user (serves 200 "OK" artifact)) "foo"
                (World with_project_lib [])).2
    = [installed_line "foo"; "Copied to project lib"].
Proof.
  split.
  - destruct (project_sync_mirrors (user (serves 200 "OK" artifact)) "foo"
                (World fresh [])
                (Response 200 "OK" (request_url "foo") artifact)
                (<[cache ++ ["foo.nula"] := File true artifact]> fresh))
      as (Habsent & _ & _).
    + reflexivity.
    + unfold is_2xx; simpl; lia.
    + vm_compute; reflexivity.
    + vm_compute; reflexivity.
    + apply Habsent. vm_compute; reflexivity.
  - destruct (project_sync_mirrors (user (serves 200 "OK" artifact)) "foo"
                (World with_project_lib [])
                (Response 200 "OK" (request_url "foo") artifact)
                (<[cache ++ ["foo.nula"] := File true artifact]>
                   with_project_lib))
      as (_ & Hdir & Hname).
    + reflexivity.
    + unfold is_2xx; simpl; lia.
    + vm_compute; reflexivity.
    + vm_compute; reflexivity.
    + rewrite (Hname eq_refl) in Hdir.
      apply (Hdir ["proj"; "lib"]).
      * vm_compute; reflexivity.
      * vm_compute; reflexivity.
      * vm_compute; reflexivity.
Defined.

(** C10.  The sync asks [os.path.exists], which a regular file
    satisfies: for every install that answered 2xx and returned, run
    where [<cwd>/lib] is a regular file, that file itself then holds the
    response body in place of its old content, and
    [Copied to project lib] is the last line printed. *)
Theorem project_lib_file_overwritten e p w w' r P m old :
  http_get e (request_url p) = Responded r →
  is_2xx r →
  resolve (w_fs w) (cwd e) (join (cwd e) "lib") = inr P →
  w_fs w !! P = Some (File m old) →
  install_pkg e p w = (Val tt, w') →
  w_fs w' !! P = Some (File true (content r))
  ∧ w_stdout w' = w_stdout w ++ [installed_line p; "Copied to project lib"].
Proof.
  intros Hget H2xx%is_2xx_passes HP Hfile Hrun.
  destruct (install_pkg_val e p w r w' Hget H2xx Hrun)
    as (q & Hq & Hnd & [[Hno _]|(P' & qd & HP' & _ & -> & _ & _ & ->)]).
  - unfold path_exists in Hno. rewrite HP, Hfile in Hno.
    by rewrite bool_decide_eq_true_2 in Hno by eauto.
  - assert (P' = P) as -> by congruence.
    unfold is_dir. rewrite Hfile. simpl. by rewrite lookup_insert_eq.
Qed.

Lemma project_lib_file_overwritten_witness :
  w_fs (install_pkg (user (serves 200 "OK" artifact)) "foo"
          (World with_lib_file [])).2 !! ["proj"; "lib"]
  = Some (File true artifact)
  ∧ w_stdout (install_pkg (user (serves 200 "OK" artifact)) "foo"
                (World with_lib_file [])).2
    = [] ++ [installed_line "foo"; "Copied to project lib"].
Proof.
  apply (project_lib_file_overwritten (user (serves 200 "OK" artifact)) "foo"
           (World with_lib_file []) _
           (Response 200 "OK" (request_url "foo") artifact)
           ["proj"; "lib"] true [x00]).
  - reflexivity.
  - unfold is_2xx; simpl; lia.
  - vm_compute; reflexivity.
  - vm_compute; reflexivity.
  - vm_compute; reflexivity.
Defined.

(** ** Installing again *)

Lemma has_entry_insert_existing (fs : filesystem) k v d n :
  is_Some (fs !! k) → has_entry (<[k := v]> fs) d n ↔ has_entry fs d n.
Proof.
  intros Hk. unfold has_entry. rewrite lookup_insert_is_Some.
  split; [|destruct (decide (k = d ++ [n])); auto].
  intros [<-|[_ ?]]; done.
Qed.

Lemma has_entry_insert_elsewhere (fs : filesystem) k v d n :
  k ≠ d ++ [n] → has_entry (<[k := v]> fs) d n ↔ has_entry fs d n.
Proof. intros Hk. unfold has_entry. by rewrite lookup_insert_ne. Qed.

(** C8 (amended).  For every package name [p] without a path separator:
    after two installs of [p] in a row from the same home and working
    directory, each answered 2xx and each returning, the library
    directory's entry [p.nula] holds the second response body, and the
    directory has exactly the entry names it had after the first
    install: the second install added no file next to the first. *)
Theorem reinstall_replaces_artifact h c net1 net2 p w0 w1 w2 r1 r2 L :
  has_sep p = false →
  net1 (request_url p) = Responded r1 → is_2xx r1 →
  net2 (request_url p) = Responded r2 → is_2xx r2 →
  resolve (w_fs w0) c (lib_dir (Env h c net1)) = inr L →
  install_pkg (Env h c net1) p w0 = (Val tt, w1) →
  install_pkg (Env h c net2) p w1 = (Val tt, w2) →
  holds_file (w_fs w2) L (p +:+ ".nula") (content r2)
  ∧ (∀ n, has_entry (w_fs w2) L n ↔ has_entry (w_fs w1) L n).
Proof.
  intros Hp Hget1 Hok1%is_2xx_passes Hget2 Hok2%is_2xx_passes HL Hrun1 Hrun2.
  set (e1 := Env h c net1) in *. set (e2 := Env h c net2) in *.
  pose proof (install_pkg_val_plain e1 p w0 w1 r1 L Hp Hget1 Hok1 HL Hrun1)
    as Hfirst.
  assert (resolve (w_fs w1) (cwd e2) (lib_dir e2) = inr L) as HL1.
  { apply (resolve_same_dirs (w_fs w0)); [|done].
    by apply (install_pkg_val_dirs e1 p w0 r1 w1). }
  split.
  - exists true.
    by apply (install_pkg_val_plain e2 p w1 w2 r2 L).
  - intros n.
    destruct (install_pkg_val e2 p w1 r2 w2 Hget2 Hok2 Hrun2)
      as (q & Hq & Hnd & Hcases).
    rewrite (resolve_lib_path_plain _ e2 p L q Hp HL1 Hq) in *.
    destruct Hcases as [[_ ->]|(P & qd & HP & HsP & Hqd & Hne & _ & ->)]; simpl.
    + apply has_entry_insert_existing. by rewrite Hfirst.
    + rewrite <- (has_entry_insert_existing (w_fs w1) (L ++ [p +:+ ".nula"])
                   (File true (content r2)) L n) by (by rewrite Hfirst).
      destruct (is_dir (w_fs w1) P) eqn:HdP.
      * apply has_entry_insert_elsewhere. subst qd.
        rewrite (basename_lib_path_plain e2 p Hp) in *.
        intros [-> <-]%app_inj_tail. done.
      * subst qd. apply has_entry_insert_existing.
        rewrite lookup_insert_ne by done. done.
Qed.

Lemma reinstall_replaces_artifact_witness :
  holds_file
    (w_fs (install_pkg (user (serves 200 "OK" artifact')) "foo"
             (install_pkg (user (serves 200 "OK" artifact)) "foo"
                (World with_project_lib [])).2).2)
    cache "foo.nula" artifact'
  ∧ (∀ n,
       has_entry
         (w_fs (install_pkg (user (serves 200 "OK" artifact')) "foo"
                  (install_pkg (user (serves 200 "OK" artifact)) "foo"
                     (World with_project_lib [])).2).2) cache n
       ↔ has_entry
           (w_fs (install_pkg (user (serves 200 "OK" artifact)) "foo"
                    (World with_project_lib [])).2) cache n).
Proof.
  apply (reinstall_replaces_artifact "/home/u" "/proj"
           (serves 200 "OK" artifact) (serves 200 "OK" artifact') "foo"
           (World with_project_lib []) _ _
           (Response 200 "OK" (request_url "foo") artifact)
           (Response 200 "OK" (request_url "foo") artifact')
           cache).
  - reflexivity.
  - reflexivity.
  - unfold is_2xx; simpl; lia.
  - reflexivity.
  - unfold is_2xx; simpl; lia.
  - vm_compute; reflexivity.
  - vm_compute; reflexivity.
  - vm_compute; reflexivity.
Defined.

(** C8 as stated fails for a name that is an absolute path: after two
    installs of [/proj/x], both answered 200 and both returning, the
    library directory has no entry at all; the second body is in
    [/proj/x.nula]. *)
Lemma reinstall_absolute_name_misses_cache :
  let e1 := user (serves 200 "OK" artifact) in
  let e2 := user (serves 200 "OK" artifact') in
  let w1 := (install_pkg e1 "/proj/x" (World fresh [])).2 in
  let w2 := (install_pkg e2 "/proj/x" w1).2 in
  install_pkg e1 "/proj/x" (World fresh []) = (Val tt, w1)
  ∧ install_pkg e2 "/proj/x" w1 = (Val tt, w2)
  ∧ resolve fresh (cwd e2) (lib_dir e2) = inr cache
  ∧ ¬ holds_file (w_fs w2) cache ("/proj/x" +:+ ".nula") artifact'
  ∧ listdir (w_fs w2) (cwd e2) (lib_dir e2) = inr []
  ∧ w_fs w2 !! ["proj"; "x.nula"] = Some (File true artifact').
Proof.
  split_and!; try (vm_compute; reflexivity).
  intros [m Hm]. vm_compute in Hm. discriminate.
Qed.

(** ** Unvalidated names *)

(** C9.  The request URL is the package name placed, as it is, between
    [https://hypothetical-nula-repo.com/libs/] and [.nula], and the
    cache path is the name joined, as it is, to the library directory;
    [install_pkg] asks the network for nothing but that URL.  So there
    is a name, [../evil], whose install writes a file that did not exist
    before to a path that does not lie under the library directory. *)
Theorem package_name_unvalidated :
  (∀ p, request_url p
        = "https://hypothetical-nula-repo.com/libs/" +:+ p +:+ ".nula")
  ∧ (∀ e p, lib_path e p = join (lib_dir e) (p +:+ ".nula"))
  ∧ (∀ h c net net' p w,
       net (request_url p) = net' (request_url p) →
       install_pkg (Env h c net) p w = install_pkg (Env h c net') p w)
  ∧ ∃ e p w w' L q,
      resolve (w_fs w) (cwd e) (lib_dir e) = inr L
      ∧ resolve (w_fs w) (cwd e) (lib_path e p) = inr q
      ∧ ¬ L `prefix_of` q
      ∧ http_get e (request_url p)
        = Responded (Response 200 "OK" (request_url p) artifact)
      ∧ install_pkg e p w = (Val tt, w')
      ∧ w_fs w !! q = None
      ∧ w_fs w' !! q = Some (File true artifact).
Proof.
  split_and!.
  - done.
  - done.
  - intros h c net net' p w Hnet.
    unfold install_pkg, try_except_RequestException, bind, requests_get.
    cbn [http_get]. by rewrite Hnet.
  - exists (user (serves 200 "OK" artifact)), "../evil", (World fresh []),
      (install_pkg (user (serves 200 "OK" artifact)) "../evil"
         (World fresh [])).2,
      cache, ["home"; "u"; ".nula"; "evil.nula"].
    split_and!; try (vm_compute; reflexivity).
    intros [k Hk]. vm_compute in Hk. discriminate.
Qed.

(** ** [os.makedirs] has fuel to spare *)

Lemma string_length_app a b :
  String.length (a +:+ b) = (String.length a + String.length b)%nat.
Proof.
  induction a as [|c a IH]; [done|]. rewrite string_app_cons. simpl.
  by rewrite IH.
Qed.

Lemma components_has_sep r :
  has_sep r = true → ∃ h h' t, components r = h :: h' :: t.
Proof.
  induction r as [|c r IH]; simpl; [done|].
  pose proof (components_nonempty r) as Hne.
  case_bool_decide; simpl.
  - intros _. destruct (components r) as [|h t]; [done|]. by exists "", h, t.
  - intros (h & h' & t & ->)%IH. by exists (String c h), h', t.
Qed.

Lemma basename_cons c r :
  has_sep r = true → basename (String c r) = basename r.
Proof.
  intros (h & h' & t & Hc)%components_has_sep. unfold basename. simpl.
  rewrite Hc. by case_bool_decide.
Qed.

Lemma upto_last_sep_basename p : upto_last_sep p +:+ basename p = p.
Proof.
  induction p as [|c r IH]; [done|]. cbn [upto_last_sep].
  destruct (has_sep r) eqn:Hr.
  - rewrite (basename_cons c r Hr), string_app_cons. by f_equal.
  - unfold basename. simpl. rewrite (components_no_sep r Hr).
    case_bool_decide; simpl; [|done]. by subst c.
Qed.

Lemma rstrip_sep_length s :
  (String.length (rstrip_sep s) ≤ String.length s)%nat.
Proof.
  induction s as [|c r IH]; [done|]. cbn [rstrip_sep].
  destruct (all_sep (String c r)); simpl; lia.
Qed.

Lemma split_length p :
  (String.length (split p).1 + String.length (split p).2
   ≤ String.length p)%nat.
Proof.
  unfold split. cbn [fst snd].
  pose proof (f_equal String.length (upto_last_sep_basename p)) as Hlen.
  rewrite string_length_app in Hlen.
  pose proof (rstrip_sep_length (upto_last_sep p)).
  case_match; lia.
Qed.

Lemma os_mkdir_raises e s w x w' :
  os_mkdir e s w = (Exn x, w') → ∃ err, x = OSError err.
Proof. unfold os_mkdir, update. intros H. case_match; simplify_eq. eauto. Qed.

Lemma makedirs_rec_fuel e fuel name w x w' :
  (String.length name < fuel)%nat →
  makedirs_rec e fuel name w = (Exn x, w') → ∃ err, x = OSError err.
Proof.
  revert name w x w'. induction fuel as [|fuel IH]; intros name w x w' Hlen;
    [lia|].
  cbn [makedirs_rec].
  set (ht := if bool_decide ((split name).2 = "") then split (split name).1
             else split name).
  assert (ht.2 ≠ "" → (String.length ht.1 < fuel)%nat) as Hshort.
  { pose proof (split_length name). pose proof (split_length (split name).1).
    unfold ht. case_bool_decide as Hempty; intros Hne.
    - destruct (split (split name).1) as [h t]; simpl in *.
      destruct t; [done|]. simpl in *. lia.
    - destruct (split name) as [h t]; simpl in *.
      destruct t; [done|]. simpl in *. lia. }
  destruct ht as [head tail]. simpl in Hshort.
  unfold bind, os_path_exists, query.
  case_match; [|eauto using os_mkdir_raises].
  unfold try_except_FileExistsError.
  destruct (makedirs_rec e fuel head w) as [[[]|x0] w1] eqn:Hrec.
  - case_match; [done|eauto using os_mkdir_raises].
  - assert (∃ err, x0 = OSError err) as [err ->].
    { apply (IH head w x0 w1); [|done]. apply Hshort.
      repeat match goal with
             | H : _ && _ = true |- _ => apply andb_prop in H as [? ?]
             end.
      intros ->. done. }
    destruct err; try (intros [= <- <-]; eauto).
    case_match; [done|eauto using os_mkdir_raises].
Qed.

(** The initialisation raises nothing but an [OSError]; in particular
    [os.makedirs] never runs out of fuel. *)
Lemma init_raises e w x w' :
  init e w = (Exn x, w') → ∃ err, x = OSError err.
Proof.
  unfold init, os_makedirs, bind, os_path_exists, query, ret. intros H.
  repeat (case_match; simplify_eq);
    eapply makedirs_rec_fuel; eauto.
Qed.

(** ** Dispatch *)

Lemma dispatcher_bad_arguments e argv line w :
  bad_arguments argv line →
  dispatcher e argv w
  = (Exn (SystemExit 1), World (w_fs w) (w_stdout w ++ [line])).
Proof.
  intros [argv' Hlen|prog|prog command rest Hi Hl].
  - unfold dispatcher.
    destruct (Z.ltb_spec (Z.of_nat (length argv')) 2); [done|lia].
  - done.
  - unfold dispatcher.
    destruct (Z.ltb_spec (Z.of_nat (length (prog :: command :: rest))) 2)
      as [Hlt|_]; [simpl in Hlt; lia|].
    unfold bind, index. simpl. unfold ret.
    by rewrite !bool_decide_eq_false_2.
Qed.

(** C6.  The dispatcher rejects a bad command line before doing anything
    else.  With fewer than two elements in [sys.argv] the line is the
    general usage, with [install] and no package name the usage of
    [install], with a first argument other than [install] and [list]
    it is [Unknown command: <token>].  On each of them the process ends
    with status 1; and when the directory initialisation before the
    dispatcher went through, that line is the only thing printed after
    it, the file system is as the initialisation left it, and the exit
    is a [sys.exit(1)], not a traceback. *)
Theorem dispatcher_rejects_bad_arguments e argv line w0 :
  bad_arguments argv line →
  exit_status (run e argv w0) = 1
  ∧ ∀ w, init e w0 = (Val tt, w) →
         run e argv w0
         = ProcessEnd 1 None (World (w_fs w) (w_stdout w ++ [line])).
Proof.
  intros Hbad.
  assert (∀ w, init e w0 = (Val tt, w) →
               run e argv w0
               = ProcessEnd 1 None (World (w_fs w) (w_stdout w ++ [line])))
    as Hrun.
  { intros w Hinit. rewrite (run_after_init e argv w0 w Hinit).
    by rewrite (dispatcher_bad_arguments e argv line w). }
  split; [|done].
  destruct (init e w0) as [[[]|x] w] eqn:Hinit.
  - by rewrite (Hrun w).
  - unfold run, script, bind. rewrite Hinit.
    by destruct (init_raises e w0 x w Hinit) as [err ->].
Qed.

Lemma dispatcher_rejects_bad_arguments_witness :
  (exit_status (run (user unreachable) ["nula-packages"] (World first_run []))
   = 1
   ∧ run (user unreachable) ["nula-packages"] (World first_run [])
     = ProcessEnd 1 None
         (World fresh ["Usage: nula-packages [install <pkg> | list]"]))
  ∧ run (user unreachable) ["nula-packages"; "install"] (World first_run [])
    = ProcessEnd 1 None (World fresh ["Usage: nula-packages install <pkg>"])
  ∧ run (user unreachable) ["nula-packages"; "remove"; "foo"]
      (World first_run [])
    = ProcessEnd 1 None (World fresh ["Unknown command: remove"]).
Proof.
  destruct (dispatcher_rejects_bad_arguments (user unreachable)
              ["nula-packages"] "Usage: nula-packages [install <pkg> | list]"
              (World first_run [])) as [Hstatus Husage].
  { apply no_command. simpl; lia. }
  destruct (dispatcher_rejects_bad_arguments (user unreachable)
              ["nula-packages"; "install"] "Usage: nula-packages install <pkg>"
              (World first_run []) (no_package "nula-packages"))
    as [_ Hinstall].
  destruct (dispatcher_rejects_bad_arguments (user unreachable)
              ["nula-packages"; "remove"; "foo"] "Unknown command: remove"
              (World first_run [])) as [_ Hunknown].
  { apply (unknown_command "nula-packages" "remove" ["foo"]); discriminate. }
  split_and!.
  - exact Hstatus.
  - apply (Husage (World fresh [])). vm_compute; reflexivity.
  - apply (Hinstall (World fresh [])). vm_compute; reflexivity.
  - apply (Hunknown (World fresh [])). vm_compute; reflexivity.
Defined.


(** * Beyond the claims *)

(** ** The directory initialisation (lines 12-19) *)

Lemma extends_with_dirs_refl fs : extends_with_dirs fs fs.
Proof. intros k. by left. Qed.

Lemma extends_with_dirs_trans fs1 fs2 fs3 :
  extends_with_dirs fs1 fs2 → extends_with_dirs fs2 fs3 →
  extends_with_dirs fs1 fs3.
Proof.
  intros H12 H23 k. destruct (H12 k) as [E12|[N1 D2]], (H23 k) as [E23|[N2 D3]].
  - left. congruence.
  - right. split; congruence.
  - right. split; congruence.
  - congruence.
Qed.

Lemma extends_with_dirs_insert (fs : filesystem) q :
  fs !! q = None → extends_with_dirs fs (<[q := Dir true]> fs).
Proof.
  intros Hq k. destruct (decide (q = k)) as [<-|Hne].
  - right. by rewrite lookup_insert_eq.
  - left. by rewrite lookup_insert_ne.
Qed.

Lemma walk_extends fs fs' cur cs r :
  extends_with_dirs fs fs' →
  walk fs cur cs = inr r → walk fs' cur cs = inr r.
Proof.
  intros Hext. revert cur. induction cs as [|c cs IH]; intros cur; simpl; [done|].
  destruct (Hext cur) as [->|[-> _]]; [|done].
  destruct (fs !! cur) as [[]|]; auto.
Qed.

Lemma resolve_extends fs fs' c s r :
  extends_with_dirs fs fs' →
  resolve fs c s = inr r → resolve fs' c s = inr r.
Proof.
  intros Hext. unfold resolve. case_bool_decide; [done|].
  by apply walk_extends.
Qed.

Lemma path_exists_extends fs fs' c s :
  extends_with_dirs fs fs' →
  path_exists fs c s = true → path_exists fs' c s = true.
Proof.
  intros Hext. unfold path_exists.
  destruct (resolve fs c s) as [|q] eqn:Hq; [done|].
  rewrite (resolve_extends fs fs' c s q Hext Hq).
  intros Hsome%bool_decide_eq_true_1. apply bool_decide_eq_true_2.
  destruct (Hext q) as [->|[Hnone _]]; [done|].
  rewrite Hnone in Hsome. by destruct Hsome.
Qed.

Lemma mkdir_inr fs c s fs' :
  mkdir fs c s = inr fs' →
  ∃ q, resolve fs c s = inr q ∧ fs !! q = None ∧ fs' = <[q := Dir true]> fs.
Proof.
  unfold mkdir. intros H. destruct (resolve fs c s) as [|q]; [done|].
  exists q. repeat case_match; simplify_eq; done.
Qed.

Lemma os_mkdir_effect e s w res w' :
  os_mkdir e s w = (res, w') →
  extends_with_dirs (w_fs w) (w_fs w') ∧ w_stdout w' = w_stdout w
  ∧ (res = Val tt → path_isdir (w_fs w') (cwd e) s = true).
Proof.
  unfold os_mkdir, update.
  destruct (mkdir (w_fs w) (cwd e) s) as [err|fs'] eqn:Hmk; intros [= <- <-].
  - split_and!; [apply extends_with_dirs_refl|done|done].
  - apply mkdir_inr in Hmk as (q & Hq & Hnone & ->). simpl.
    pose proof (extends_with_dirs_insert (w_fs w) q Hnone) as Hext.
    split_and!; [done|done|]. intros _. unfold path_isdir.
    rewrite (resolve_extends _ _ _ _ _ Hext Hq). unfold is_dir.
    by rewrite lookup_insert_eq.
Qed.

Lemma makedirs_rec_effect e fuel name w res w' :
  makedirs_rec e fuel name w = (res, w') →
  extends_with_dirs (w_fs w) (w_fs w') ∧ w_stdout w' = w_stdout w.
Proof.
  revert name w res w'. induction fuel as [|fuel IH]; intros name w res w'.
  { intros [= <- <-]. split; [apply extends_with_dirs_refl|done]. }
  cbn [makedirs_rec].
  destruct (if bool_decide ((split name).2 = "") then split (split name).1
            else split name) as [head tail].
  unfold bind, os_path_exists, query.
  case_match; [|intros Hmk; by apply os_mkdir_effect in Hmk as (? & ? & _)].
  unfold try_except_FileExistsError.
  destruct (makedirs_rec e fuel head w) as [r1 w1] eqn:Hrec.
  destruct (IH head w r1 w1 Hrec) as [Hext1 Hout1].
  assert (∀ r2 w2,
            (if bool_decide (tail = ".") then ret tt else os_mkdir e name) w1
            = (r2, w2) →
            extends_with_dirs (w_fs w) (w_fs w2) ∧ w_stdout w2 = w_stdout w)
    as Hlast.
  { intros r2 w2. destruct (bool_decide (tail = ".")).
    - unfold ret. intros [= <- <-]. by split.
    - intros (Hext2 & Hout2 & _)%os_mkdir_effect.
      split; [by eapply extends_with_dirs_trans|congruence]. }
  destruct r1 as [[]|x]; [apply Hlast|].
  destruct x as [msg|err|code| |]; try (intros [= <- <-]; by split).
  destruct err; try (intros [= <- <-]; by split). apply Hlast.
Qed.

(** When the last component of [name] is an ordinary name, a returning
    [os.makedirs(name)] ends with [os.mkdir(name)]. *)
Lemma makedirs_rec_val e fuel name w w' :
  basename name ≠ "" → basename name ≠ "." →
  makedirs_rec e fuel name w = (Val tt, w') →
  path_isdir (w_fs w') (cwd e) name = true.
Proof.
  intros Hne Hdot. destruct fuel as [|fuel]; [done|]. cbn [makedirs_rec].
  assert ((split name).2 = basename name) as Htail by done.
  rewrite (bool_decide_eq_false_2 ((split name).2 = "")) by congruence.
  destruct (split name) as [head tail]. simpl in Htail. subst tail.
  unfold bind, os_path_exists, query.
  rewrite (bool_decide_eq_false_2 (basename name = ".")) by done.
  case_match;
    [|intros Hmk; by apply os_mkdir_effect in Hmk as (_ & _ & ->)].
  destruct (try_except_FileExistsError _ _) as [[[]|x] w1]; [|done].
  intros Hmk. by apply os_mkdir_effect in Hmk as (_ & _ & ->).
Qed.

Lemma join_shape c b :
  b ≠ "" → startswith_sep b = false →
  join c b ≠ "" ∧ endswith_sep (join c b) = endswith_sep b.
Proof.
  intros Hb Hstart. destruct (join_ends_with c b Hstart) as [x ->]. split.
  - by intros [_ ?]%app_empty_inv.
  - by apply endswith_sep_app.
Qed.

Lemma basename_nula_dir e : ∃ y, basename (nula_dir e) = y +:+ ".nula".
Proof.
  unfold nula_dir. destruct (join_ends_with (home_dir e) ".nula") as [x ->];
    [done|].
  exists (basename x). by apply basename_app_no_sep.
Qed.

Lemma basename_lib_dir e : ∃ y, basename (lib_dir e) = y +:+ "lib".
Proof.
  unfold lib_dir. destruct (join_ends_with (nula_dir e) "lib") as [x ->];
    [done|].
  exists (basename x). by apply basename_app_no_sep.
Qed.

Lemma path_isdir_exists fs c s :
  path_isdir fs c s = true → path_exists fs c s = true.
Proof.
  unfold path_isdir, path_exists, is_dir.
  destruct (resolve fs c s) as [|q]; [done|].
  destruct (fs !! q) as [[]|]; [done| |done].
  intros _. apply bool_decide_eq_true_2. eauto.
Qed.

Lemma lib_dir_exists_nula_dir fs e :
  path_exists fs (cwd e) (lib_dir e) = true →
  path_isdir fs (cwd e) (nula_dir e) = true.
Proof.
  unfold path_exists, path_isdir, lib_dir.
  destruct (join_shape (home_dir e) ".nula") as [Hne Hend]; [done|done|].
  fold (nula_dir e) in Hne, Hend.
  rewrite resolve_join by done.
  destruct (resolve fs (cwd e) (nula_dir e)) as [|d]; [done|].
  change (components "lib") with ["lib"]. rewrite walk_single. unfold is_dir.
  by destruct (fs !! d) as [[]|].
Qed.

Lemma os_makedirs_nula_dir e w w' :
  os_makedirs e (nula_dir e) w = (Val tt, w') →
  path_exists (w_fs w') (cwd e) (nula_dir e) = true.
Proof.
  intros Hmk. apply path_isdir_exists.
  destruct (basename_nula_dir e) as [y Hy].
  apply (makedirs_rec_val e (S (String.length (nula_dir e))) _ w w');
    [| |done]; rewrite Hy; apply plain_nula.
Qed.

Lemma os_makedirs_lib_dir e w w' :
  os_makedirs e (lib_dir e) w = (Val tt, w') →
  path_exists (w_fs w') (cwd e) (lib_dir e) = true.
Proof.
  intros Hmk. apply path_isdir_exists.
  destruct (basename_lib_dir e) as [y Hy].
  apply (makedirs_rec_val e (S (String.length (lib_dir e))) _ w w');
    [| |done]; rewrite Hy; apply plain_lib.
Qed.

Lemma os_makedirs_effect e name w res w' :
  os_makedirs e name w = (res, w') →
  extends_with_dirs (w_fs w) (w_fs w') ∧ w_stdout w' = w_stdout w.
Proof. apply makedirs_rec_effect. Qed.

Lemma init_effect e w res w' :
  init e w = (res, w') →
  extends_with_dirs (w_fs w) (w_fs w') ∧ w_stdout w' = w_stdout w.
Proof.
  unfold init, bind, os_path_exists, query, ret.
  destruct (path_exists (w_fs w) (cwd e) (nula_dir e)); cbn [negb].
  - destruct (path_exists (w_fs w) (cwd e) (lib_dir e)); cbn [negb].
    + intros [= <- <-]. split; [apply extends_with_dirs_refl|done].
    + apply os_makedirs_effect.
  - destruct (os_makedirs e (nula_dir e) w) as [r1 w1] eqn:Hmk1.
    apply os_makedirs_effect in Hmk1 as [Hext1 Hout1].
    destruct r1 as [[]|x]; [|intros [= <- <-]; by split].
    destruct (path_exists (w_fs w1) (cwd e) (lib_dir e)); cbn [negb].
    + intros [= <- <-]. by split.
    + intros [Hext2 Hout2]%os_makedirs_effect.
      split; [by eapply extends_with_dirs_trans|congruence].
Qed.

(** X1.  When the initialisation returns, [~/.nula] is a directory and
    [~/.nula/lib] exists, nothing was printed, and running it once more
    on the world it left returns at once with that world unchanged. *)
Theorem init_establishes_layout e w w' :
  init e w = (Val tt, w') →
  path_isdir (w_fs w') (cwd e) (nula_dir e) = true
  ∧ path_exists (w_fs w') (cwd e) (lib_dir e) = true
  ∧ w_stdout w' = w_stdout w
  ∧ init e w' = (Val tt, w').
Proof.
  intros Hinit.
  assert (path_exists (w_fs w') (cwd e) (lib_dir e) = true) as Hlib.
  { revert Hinit. unfold init, bind, os_path_exists, query, ret.
    destruct (path_exists (w_fs w) (cwd e) (nula_dir e)); cbn [negb].
    - destruct (path_exists (w_fs w) (cwd e) (lib_dir e)) eqn:Hl; cbn [negb].
      + by intros [= <-].
      + apply os_makedirs_lib_dir.
    - destruct (os_makedirs e (nula_dir e) w) as [[[]|x] w1]; [|done].
      destruct (path_exists (w_fs w1) (cwd e) (lib_dir e)) eqn:Hl; cbn [negb].
      + by intros [= <-].
      + apply os_makedirs_lib_dir. }
  pose proof (lib_dir_exists_nula_dir _ e Hlib) as Hnula.
  split_and!; [done|done|by apply init_effect in Hinit as [_ ?]|].
  unfold init, bind, os_path_exists, query, ret.
  rewrite (path_isdir_exists _ _ _ Hnula). cbv beta iota delta [negb].
  by rewrite Hlib.
Qed.

Lemma init_establishes_layout_witness :
  path_isdir fresh "/proj" "/home/u/.nula" = true
  ∧ path_exists fresh "/proj" "/home/u/.nula/lib" = true
  ∧ w_stdout (World fresh []) = w_stdout (World first_run [])
  ∧ init (user unreachable) (World fresh []) = (Val tt, World fresh []).
Proof.
  apply (init_establishes_layout (user unreachable) (World first_run [])
           (World fresh [])).
  vm_compute; reflexivity.
Defined.

(** X2.  Whatever its outcome, the initialisation only ever adds
    directories: every path holds afterwards what it held before, or
    was absent and is now a new directory; and it prints nothing. *)
Theorem init_only_adds_directories e w :
  extends_with_dirs (w_fs w) (w_fs (init e w).2)
  ∧ w_stdout (init e w).2 = w_stdout w.
Proof.
  destruct (init e w) as [res w'] eqn:Hinit. simpl.
  by apply (init_effect e w res w').
Qed.



(** ** Routing (lines 50-64) *)

Lemma dispatcher_list e prog rest w :
  dispatcher e (prog :: "list" :: rest) w = list_pkgs e w.
Proof.
  unfold dispatcher.
  destruct (Z.ltb_spec (Z.of_nat (length (prog :: "list" :: rest))) 2)
    as [Hlt|_]; [simpl in Hlt; lia|].
  done.
Qed.

Lemma dispatcher_install_rest e prog p rest w :
  dispatcher e (prog :: "install" :: p :: rest) w = install_pkg e p w.
Proof.
  unfold dispatcher.
  destruct (Z.ltb_spec (Z.of_nat (length (prog :: "install" :: p :: rest))) 2)
    as [Hlt|_]; [simpl in Hlt; lia|].
  unfold bind at 1. cbn [index lookup list_lookup ret].
  rewrite bool_decide_eq_true_2 by done.
  destruct (Z.ltb_spec (Z.of_nat (length (prog :: "install" :: p :: rest))) 3)
    as [Hlt|_]; [simpl in Hlt; lia|].
  done.
Qed.

(** X4.  Arguments after the command are ignored: [list] followed by
    anything runs as [list] alone, and [install <p>] followed by anything
    runs as [install <p>] alone. *)
Theorem extra_arguments_ignored e prog p rest w0 :
  run e (prog :: "list" :: rest) w0 = run e [prog; "list"] w0
  ∧ run e (prog :: "install" :: p :: rest) w0 = run e [prog; "install"; p] w0.
Proof.
  unfold run, script, bind.
  destruct (init e w0) as [[[]|x] w]; [|done].
  by rewrite !dispatcher_list, !dispatcher_install_rest.
Qed.

(** ** Listing (lines 41-48) *)

(** X5.  When [os.listdir] of the library directory fails (the
    initialisation only made sure the path exists, not that it is a
    directory), [list] handles nothing: the process ends with a
    traceback of that [OSError] and status 1, having printed nothing
    and changed nothing. *)
Theorem list_unreadable_cache_is_fatal e prog rest w0 w err :
  init e w0 = (Val tt, w) →
  listdir (w_fs w) (cwd e) (lib_dir e) = inl err →
  run e (prog :: "list" :: rest) w0 = ProcessEnd 1 (Some (OSError err)) w.
Proof.
  intros Hinit Hls. rewrite (run_after_init e _ w0 w Hinit), dispatcher_list.
  unfold list_pkgs, bind, os_listdir, attempt. by rewrite Hls.
Qed.

Lemma list_unreadable_cache_is_fatal_witness :
  run (user unreachable) ["nula-packages"; "list"] (World cache_is_file [])
  = ProcessEnd 1 (Some (OSError NotADirectoryError)) (World cache_is_file []).
Proof.
  apply (list_unreadable_cache_is_fatal (user unreachable) "nula-packages" []
           (World cache_is_file []) (World cache_is_file [])
           NotADirectoryError).
  - vm_compute; reflexivity.
  - vm_compute; reflexivity.
Defined.

(** X6.  [list_pkgs] never changes the file system, whatever the state
    of the library directory and whatever its outcome. *)
Theorem list_pkgs_read_only e w : w_fs (list_pkgs e w).2 = w_fs w.
Proof.
  unfold list_pkgs, bind, os_listdir, attempt.
  destruct (listdir (w_fs w) (cwd e) (lib_dir e)) as [err|[|n names]];
    [done|done|].
  unfold print at 1. cbv beta iota.
  by rewrite (for_each_print (λ n, "- " +:+ n)).
Qed.

(** ** Installing (lines 21-39) *)




(** X8.  When the response passed but the cache file cannot be written
    (a missing or unwritable directory, a directory in its place), the
    [OSError] is not handled: [install_pkg] raises it having printed
    nothing and changed nothing, and the process ends with a traceback
    and status 1. *)
Theorem cache_write_failure_uncaught e prog p w0 w r err :
  init e w0 = (Val tt, w) →
  http_get e (request_url p) = Responded r →
  passes r →
  write_file (w_fs w) (cwd e) (lib_path e p) (content r) = inl err →
  install_pkg e p w = (Exn (OSError err), w)
  ∧ run e [prog; "install"; p] w0 = ProcessEnd 1 (Some (OSError err)) w.
Proof.
  intros Hinit Hget Hpass Hw.
  assert (install_pkg e p w = (Exn (OSError err), w)) as Hrun.
  { rewrite (install_pkg_fetched e p w r) by done.
    unfold bind, open_wb_write, update. by rewrite Hw. }
  split; [done|].
  rewrite (run_after_init e _ w0 w Hinit), dispatcher_install.
  by rewrite Hrun.
Qed.

Lemma cache_write_failure_uncaught_witness :
  install_pkg (user (serves 200 "OK" artifact)) "sub/foo" (World fresh [])
  = (Exn (OSError FileNotFoundError), World fresh [])
  ∧ run (user (serves 200 "OK" artifact))
      ["nula-packages"; "install"; "sub/foo"] (World first_run [])
    = ProcessEnd 1 (Some (OSError FileNotFoundError)) (World fresh []).
Proof.
  apply (cache_write_failure_uncaught (user (serves 200 "OK" artifact))
           "nula-packages" "sub/foo" (World first_run []) (World fresh [])
           (Response 200 "OK" (request_url "sub/foo") artifact)).
  - vm_compute; reflexivity.
  - reflexivity.
  - unfold passes; simpl; lia.
  - vm_compute; reflexivity.
Defined.

(** ** What an install leaves alone *)

Lemma keeps_refl fs : keeps fs fs.
Proof. by split. Qed.

Lemma keeps_trans fs1 fs2 fs3 : keeps fs1 fs2 → keeps fs2 fs3 → keeps fs1 fs3.
Proof.
  intros [Hd12 Hs12] [Hd23 Hs23]. split; intros k.
  - by rewrite Hd12.
  - intros H. by apply Hs23, Hs12.
Qed.

Lemma keeps_insert_file (fs : filesystem) q m data :
  is_dir fs q = false → keeps fs (<[q := File m data]> fs).
Proof.
  intros Hq. split; intros k.
  - by rewrite is_dir_insert_file.
  - rewrite lookup_insert_is_Some. destruct (decide (q = k)); auto.
Qed.

Lemma write_file_keeps fs c s data fs' :
  write_file fs c s data = inr fs' → keeps fs fs'.
Proof.
  intros (q & _ & Hnd & ->)%write_file_inr. by apply keeps_insert_file.
Qed.

Lemma chmod_keeps fs c s m fs' : chmod fs c s m = inr fs' → keeps fs fs'.
Proof.
  unfold chmod. destruct (resolve fs c s) as [|q]; [done|].
  destruct (fs !! q) as [[m0 data|m0]|] eqn:Hq; [| |done]; intros [= <-].
  - apply keeps_insert_file. unfold is_dir. by rewrite Hq.
  - split; intros k.
    + unfold is_dir. destruct (decide (q = k)) as [<-|Hne].
      * by rewrite lookup_insert_eq, Hq.
      * by rewrite lookup_insert_ne.
    + rewrite lookup_insert_is_Some. destruct (decide (q = k)); auto.
Qed.

Lemma shutil_copy_keeps e src dst w res w' :
  shutil_copy e src dst w = (res, w') → keeps (w_fs w) (w_fs w').
Proof.
  destruct w as [fs out].
  unfold shutil_copy, shutil_copyfile, shutil_copymode, open_wb_write,
    os_path_isdir, bind, query, attempt, update, raise, ret. simpl.
  set (d0 := if path_isdir fs (cwd e) dst then _ else _).
  destruct (samefile fs (cwd e) src d0); simpl;
    [intros [= <- <-]; apply keeps_refl|].
  destruct (read_file fs (cwd e) src) as [|[m data]]; simpl;
    [intros [= <- <-]; apply keeps_refl|].
  destruct (write_file fs (cwd e) d0 data) as [|fs1] eqn:Hw; simpl;
    [intros [= <- <-]; apply keeps_refl|].
  apply write_file_keeps in Hw.
  destruct (read_file fs1 (cwd e) src) as [|[m' data']]; simpl;
    [by intros [= <- <-]|].
  destruct (chmod fs1 (cwd e) d0 m') as [|fs2] eqn:Hc; simpl;
    [by intros [= <- <-]|].
  apply chmod_keeps in Hc. intros [= <- <-]. by eapply keeps_trans.
Qed.

Lemma project_sync_keeps e lp w res w' :
  project_sync e lp w = (res, w') → keeps (w_fs w) (w_fs w').
Proof.
  destruct w as [fs out].
  unfold project_sync, bind, os_getcwd, attempt, os_path_exists, query, ret,
    print. simpl.
  destruct (path_isdir fs (cwd e) (cwd e)); simpl;
    [|intros [= <- <-]; apply keeps_refl].
  destruct (path_exists fs (cwd e) (join (cwd e) "lib")); simpl;
    [|intros [= <- <-]; apply keeps_refl].
  destruct (shutil_copy e lp _ _) as [[d|x] w1] eqn:Hcopy;
    apply shutil_copy_keeps in Hcopy; by intros [= <- <-].
Qed.

(** X9.  Whatever its outcome, [install_pkg] deletes nothing and
    replaces no directory: every path that existed before still exists
    afterwards, and the directories are exactly the ones there were. *)
Theorem install_pkg_keeps_everything e p w :
  keeps (w_fs w) (w_fs (install_pkg e p w).2).
Proof.
  unfold install_pkg, try_except_RequestException, bind, requests_get.
  destruct (http_get e (request_url p)) as [msg|r]; [apply keeps_refl|].
  unfold raise_for_status, raise, ret.
  repeat case_match; simplify_eq; try apply keeps_refl.
  all: match goal with
       | H : open_wb_write _ _ _ _ = _ |- _ =>
           unfold open_wb_write, update in H;
           destruct (write_file _ _ _ _) as [|fs1] eqn:Hw; simplify_eq
       end; try apply keeps_refl.
  all: apply write_file_keeps in Hw.
  all: repeat match goal with
         | H : print _ _ = _ |- _ => unfold print in H; simplify_eq
         | H : project_sync _ _ _ = _ |- _ => apply project_sync_keeps in H
         end; simpl in *; eauto using keeps_trans.
Qed.

(** ** How the process can end *)





(** ** One package, one URL, one cache file *)

Lemma string_app_inj_r a b s : a +:+ s = b +:+ s → a = b.
Proof.
  revert b. induction a as [|c a IH]; intros [|c' b] H.
  - done.
  - apply (f_equal String.length) in H.
    rewrite !string_length_app in H. simpl in H. lia.
  - apply (f_equal String.length) in H.
    rewrite !string_length_app in H. simpl in H. lia.
  - rewrite !string_app_cons in H. injection H as -> H. f_equal. by apply IH.
Qed.



(** X12.  Installing one package leaves the cached file of every other
    one as it is: for names [p] and [p'] without separator, [p ≠ p'], an
    install of [p'] that answered with a passing status and returned
    has not changed what the library directory holds under [p.nula]. *)
Theorem install_leaves_other_packages e p p' w w' r L :
  has_sep p = false → has_sep p' = false → p ≠ p' →
  http_get e (request_url p') = Responded r →
  passes r →
  resolve (w_fs w) (cwd e) (lib_dir e) = inr L →
  install_pkg e p' w = (Val tt, w') →
  w_fs w' !! (L ++ [p +:+ ".nula"]) = w_fs w !! (L ++ [p +:+ ".nula"]).
Proof.
  intros Hp Hp' Hne Hget Hpass HL Hrun.
  assert (p' +:+ ".nula" ≠ p +:+ ".nula") as Hname
    by (intros H%string_app_inj_r; done).
  destruct (install_pkg_val e p' w r w' Hget Hpass Hrun)
    as (q & Hq & _ & Hcases).
  rewrite (resolve_lib_path_plain _ e p' L q Hp' HL Hq) in *.
  assert (L ++ [p' +:+ ".nula"] ≠ L ++ [p +:+ ".nula"]) as Hq'
    by (intros [_ ?]%app_inj_tail; done).
  destruct Hcases as [[_ ->]|(P & qd & HP & _ & -> & _ & _ & ->)]; simpl.
  - by rewrite lookup_insert_ne.
  - rewrite lookup_insert_ne; [by rewrite lookup_insert_ne|].
    destruct (is_dir (w_fs w) P).
    + rewrite (basename_lib_path_plain e p' Hp').
      intros [_ ?]%app_inj_tail. done.
    + apply resolve_project_lib in HP as (d & y & -> & _).
      intros [_ H]%app_inj_tail. by apply lib_ne_nula in H.
Qed.

Lemma install_leaves_other_packages_witness :
  w_fs (install_pkg (user (serves 200 "OK" artifact')) "a"
          (World with_two_packages [])).2 !! (cache ++ ["b" +:+ ".nula"])
  = with_two_packages !! (cache ++ ["b" +:+ ".nula"]).
Proof.
  apply (install_leaves_other_packages (user (serves 200 "OK" artifact'))
           "b" "a" (World with_two_packages []) _
           (Response 200 "OK" (request_url "a") artifact') cache).
  - reflexivity.
  - reflexivity.
  - discriminate.
  - reflexivity.
  - unfold passes; simpl; lia.
  - vm_compute; reflexivity.
  - vm_compute; reflexivity.
Defined.

(** ** What a returning install has done *)

(** X13.  Whenever [install_pkg] returns, it has printed exactly one of
    three things after what was printed before: the error line with the
    cause of a failed request, and then the file system is untouched;
    the success line alone; or the success line followed by
    [Copied to project lib]. *)
Theorem install_pkg_report e p w w' :
  install_pkg e p w = (Val tt, w') →
  (∃ cause, request_fails e p cause
            ∧ w_stdout w' = w_stdout w ++ [error_line p cause]
            ∧ w_fs w' = w_fs w)
  ∨ w_stdout w' = w_stdout w ++ [installed_line p]
  ∨ w_stdout w' = w_stdout w ++ [installed_line p; "Copied to project lib"].
Proof.
  intros Hrun. destruct (http_get e (request_url p)) as [msg|r] eqn:Hget.
  - rewrite (install_pkg_request_failed e p w msg Hget) in Hrun.
    injection Hrun as <-. left. exists msg. by split; [constructor|].
  - destruct (decide (400 ≤ status_code r < 600)) as [Herr|Hpass].
    + rewrite (install_pkg_http_error e p w r Hget Herr) in Hrun.
      injection Hrun as <-. left. exists (http_error_msg r).
      split; [by eapply error_status|done].
    + right.
      destruct (install_pkg_val e p w r w' Hget Hpass Hrun)
        as (q & _ & _ & [[_ ->]|(P & qd & _ & _ & _ & _ & _ & ->)]);
        [by left|by right].
Qed.

Lemma install_pkg_report_witness :
  (∃ cause, request_fails (user unreachable) "foo" cause
            ∧ w_stdout (World fresh ["Error installing foo: Connection refused"])
              = w_stdout (World fresh []) ++ [error_line "foo" cause]
            ∧ w_fs (World fresh ["Error installing foo: Connection refused"])
              = w_fs (World fresh []))
  ∨ w_stdout (World fresh ["Error installing foo: Connection refused"])
    = w_stdout (World fresh []) ++ [installed_line "foo"]
  ∨ w_stdout (World fresh ["Error installing foo: Connection refused"])
    = w_stdout (World fresh [])
      ++ [installed_line "foo"; "Copied to project lib"].
Proof.
  apply (install_pkg_report (user unreachable) "foo" (World fresh [])).
  vm_compute; reflexivity.
Defined.

(** X14.  After an install that answered with a passing status and
    returned, with [<cwd>/lib] a directory, the cache file and its copy
    in that directory are two different files with the same content,
    the response body, whatever the package name. *)
Theorem project_copy_equals_cache e p w w' r P :
  http_get e (request_url p) = Responded r →
  passes r →
  resolve (w_fs w) (cwd e) (join (cwd e) "lib") = inr P →
  is_dir (w_fs w) P = true →
  install_pkg e p w = (Val tt, w') →
  ∃ q, resolve (w_fs w) (cwd e) (lib_path e p) = inr q
    ∧ q ≠ P ++ [basename (lib_path e p)]
    ∧ w_fs w' !! q = Some (File true (content r))
    ∧ w_fs w' !! (P ++ [basename (lib_path e p)])
      = Some (File true (content r)).
Proof.
  intros Hget Hpass HP Hdir Hrun.
  destruct (install_pkg_val e p w r w' Hget Hpass Hrun)
    as (q & Hq & Hnd & [[Hno _]|(P' & qd & HP' & _ & -> & Hne & _ & ->)]).
  - unfold path_exists in Hno. rewrite HP in Hno.
    unfold is_dir in Hdir. destruct (w_fs w !! P); [|done].
    by rewrite bool_decide_eq_true_2 in Hno by eauto.
  - assert (P' = P) as -> by congruence. rewrite Hdir in *. simpl.
    exists q. split_and!; [done|congruence| |by rewrite lookup_insert_eq].
    rewrite lookup_insert_ne by done. by rewrite lookup_insert_eq.
Qed.

Lemma project_copy_equals_cache_witness :
  ∃ q, resolve with_project_lib "/proj"
         (lib_path (user (serves 200 "OK" artifact)) "foo") = inr q
    ∧ q ≠ ["proj"; "lib"]
          ++ [basename (lib_path (user (serves 200 "OK" artifact)) "foo")]
    ∧ w_fs (install_pkg (user (serves 200 "OK" artifact)) "foo"
              (World with_project_lib [])).2 !! q
      = Some (File true artifact)
    ∧ w_fs (install_pkg (user (serves 200 "OK" artifact)) "foo"
              (World with_project_lib [])).2
        !! (["proj"; "lib"]
            ++ [basename (lib_path (user (serves 200 "OK" artifact)) "foo")])
      = Some (File true artifact).
Proof.
  apply (project_copy_equals_cache (user (serves 200 "OK" artifact)) "foo"
           (World with_project_lib []) _
           (Response 200 "OK" (request_url "foo") artifact) ["proj"; "lib"]).
  - reflexivity.
  - unfold passes; simpl; lia.
  - vm_compute; reflexivity.
  - vm_compute; reflexivity.
  - vm_compute; reflexivity.
Defined.
